(** * kitten_control: the session classification and report engine

    A shallow embedding of [scripts/kitten_control.py]: the process
    classifier, the SSH-target extractor, the error scanner, the age
    formatter and the report synthesizer ([KittenController.summary]),
    followed by the properties its specification states about them. *)

From Stdlib Require Import ZArith NArith List Ascii String Lia.
From Stdlib Require Import DecimalString DecimalPos DecimalZ.
From stdpp Require Import base decidable list gmap.

Local Open Scope Z_scope.

(** ** Python strings

    A Python [str] is a sequence of Unicode code points; [len], slicing and
    the regular expressions of the program all count code points.  A string
    is therefore a list of code points, and a literal of the source is
    written [u "..."]: the UTF-8 bytes of the literal, decoded. *)

Module PyStr.

Definition char := N.
Definition str := list N.

Fixpoint utf8_decode (bs : list N) : str :=
  match bs with
  | [] => []
  | b :: r =>
      if (b <? 128)%N then b :: utf8_decode r
      else if (b <? 224)%N then
        match r with
        | c1 :: r1 => ((b - 192) * 64 + (c1 - 128))%N :: utf8_decode r1
        | _ => []
        end
      else if (b <? 240)%N then
        match r with
        | c1 :: c2 :: r2 =>
            ((b - 224) * 4096 + (c1 - 128) * 64 + (c2 - 128))%N :: utf8_decode r2
        | _ => []
        end
      else
        match r with
        | c1 :: c2 :: c3 :: r3 =>
            ((b - 240) * 262144 + (c1 - 128) * 4096 + (c2 - 128) * 64 + (c3 - 128))%N
              :: utf8_decode r3
        | _ => []
        end
  end.

Fixpoint bytes_of (s : string) : list N :=
  match s with
  | EmptyString => []
  | String a r => N_of_ascii a :: bytes_of r
  end.

Definition u (s : string) : str := utf8_decode (bytes_of s).

(** The characters the program names by an escape: ['\n'], ['\r'],
    ['\x1b'] and the double quote. *)
Definition LF : char := 10%N.
Definition CR : char := 13%N.
Definition ESC : char := 27%N.
Definition DQUOTE : char := 34%N.

(** [str.lower()].  Exact on U+0000..U+00FF (ASCII and Latin-1, which is
    closed under lowercasing); code points above that range are left as they
    are. *)
Definition lower_char (c : char) : char :=
  if ((65 <=? c) && (c <=? 90))%N then (c + 32)%N
  else if ((192 <=? c) && (c <=? 222) && negb (c =? 215))%N then (c + 32)%N
  else c.

Definition lower (s : str) : str := map lower_char s.

(** [str.isspace()] of one character: the Unicode white space. *)
Definition is_space (c : char) : bool :=
  ((9 <=? c) && (c <=? 13) || (28 <=? c) && (c <=? 32) || (c =? 133) || (c =? 160)
   || (c =? 5760) || (8192 <=? c) && (c <=? 8202) || (c =? 8232) || (c =? 8233)
   || (c =? 8239) || (c =? 8287) || (c =? 12288))%N.

Fixpoint lstrip (s : str) : str :=
  match s with
  | c :: r => if is_space c then lstrip r else s
  | [] => []
  end.

Definition rstrip (s : str) : str := rev (lstrip (rev s)).

(** [s.strip()] *)
Definition strip (s : str) : str := rstrip (lstrip s).

(** [s.split(sep)] for a one-character separator: never an empty list. *)
Fixpoint split (sep : char) (s : str) : list str :=
  match s with
  | [] => [[]]
  | c :: r =>
      if (c =? sep)%N then [] :: split sep r
      else match split sep r with
           | h :: t => (c :: h) :: t
           | [] => [[c]]
           end
  end.

(** [sep.join(parts)] *)
Fixpoint join (sep : str) (parts : list str) : str :=
  match parts with
  | [] => []
  | [p] => p
  | p :: rest => p ++ sep ++ join sep rest
  end.

(** [s.startswith(p)] *)
Fixpoint startswith (p s : str) : bool :=
  match p, s with
  | [], _ => true
  | a :: p', b :: s' => (a =? b)%N && startswith p' s'
  | _ :: _, [] => false
  end.

(** [needle in s] *)
Fixpoint contains (needle s : str) : bool :=
  startswith needle s ||
  match s with
  | [] => false
  | _ :: r => contains needle r
  end.

(** [x in (a, b, ...)] on a tuple of strings. *)
Definition in_tuple (x : str) (t : list str) : bool := bool_decide (x ∈ t).

(** [s.replace(old, new)] for a one-character [old]. *)
Definition replace_char (old : char) (new : str) (s : str) : str :=
  flat_map (fun c => if (c =? old)%N then new else [c]) s.

(** [s[:k]]: a negative bound counts from the end. *)
Definition slice_to (s : str) (k : Z) : str :=
  if 0 <=? k then take (Z.to_nat k) s
  else take (length s - Z.to_nat (- k)) s.

(** [l[start:]]: a negative start counts from the end, and stops at the
    head of the list. *)
Definition slice_from {A} (l : list A) (start : Z) : list A :=
  if start <? 0 then drop (Z.to_nat (Z.of_nat (length l) + start)) l
  else drop (Z.to_nat start) l.

(** [s.rstrip('\n')] *)
Fixpoint lstrip_char (c : char) (s : str) : str :=
  match s with
  | x :: r => if (x =? c)%N then lstrip_char c r else s
  | [] => []
  end.

Definition rstrip_char (c : char) (s : str) : str := rev (lstrip_char c (rev s)).

(** [str(n)] / [f"{n}"] of an integer. *)
Definition str_of_Z (n : Z) : str :=
  bytes_of (NilZero.string_of_int (Z.to_int n)).

(** [s.split("/")[-1]] *)
Definition basename (s : str) : str := List.last (split 47%N s) [].

End PyStr.

Import PyStr.

(** ** Process classifier: [KittenController._categorize_process] *)

Definition shells : list str :=
  [u "zsh"; u "bash"; u "sh"; u "fish"; u "tcsh"; u "ksh"; u "-zsh"; u "-bash"].
Definition editors : list str :=
  [u "vim"; u "nvim"; u "vi"; u "nano"; u "emacs"; u "code"; u "subl"; u "micro"; u "helix"].
Definition build_tools : list str :=
  [u "make"; u "cmake"; u "cargo"; u "go"; u "gcc"; u "clang"; u "rustc"; u "npm";
   u "yarn"; u "pnpm"; u "gradle"; u "mvn"].
Definition test_runners : list str :=
  [u "pytest"; u "jest"; u "mocha"; u "rspec"; u "go"].
Definition servers : list str :=
  [u "node"; u "python"; u "ruby"; u "java"; u "uvicorn"; u "gunicorn"; u "nginx";
   u "postgres"; u "redis"].
Definition agents : list str := [u "codex"; u "claude"; u "aider"; u "copilot"].
Definition containers : list str := [u "docker"; u "podman"; u "kubectl"; u "k9s"].
Definition viewers : list str :=
  [u "less"; u "more"; u "cat"; u "bat"; u "ranger"; u "mc"; u "htop"; u "top"; u "btop"].
Definition script_langs : list str :=
  [u "python"; u "python3"; u "node"; u "ruby"; u "perl"].

(** The labels the classifier returns, as the source spells them. *)
Definition L_unknown : str := u "unknown".
Definition L_shell : str := u "🐚 shell".
Definition L_editor : str := u "📝 editor".
Definition L_build : str := u "🔨 build".
Definition L_test : str := u "🧪 test".
Definition L_server : str := u "🌐 server".
Definition L_ssh : str := u "🔗 ssh".
Definition L_agent : str := u "🤖 agent".
Definition L_git : str := u "📦 git".
Definition L_container : str := u "🐳 container".
Definition L_viewer : str := u "👁 viewer".
Definition L_flutter : str := u "📱 flutter".
Definition L_script : str := u "⚡ script".
Definition L_process : str := u "💻 process".

(** [cmd = cmdline[0].lower(); base = cmd.split("/")[-1]] *)
Definition base_of (cmdline : list str) : str :=
  match cmdline with
  | [] => []
  | c0 :: _ => basename (lower c0)
  end.

(** [full_cmd = " ".join(cmdline).lower()] *)
Definition full_cmd_of (cmdline : list str) : str := lower (join (u " ") cmdline).

Definition _categorize_process (cmdline : list str) : str :=
  match cmdline with
  | [] => L_unknown
  | _ :: _ =>
      let base := base_of cmdline in
      let full_cmd := full_cmd_of cmdline in
      if in_tuple base shells then L_shell
      else if in_tuple base editors then L_editor
      else if in_tuple base build_tools then L_build
      else if in_tuple base test_runners || contains (u "test") full_cmd then L_test
      else if in_tuple base servers
              && (contains (u "server") full_cmd || contains (u "serve") full_cmd
                  || contains (u "run") full_cmd)
           then L_server
      else if bool_decide (base = u "ssh") || contains (u "ssh ") full_cmd then L_ssh
      else if in_tuple base agents || contains (u "codex") full_cmd
              || contains (u "claude") full_cmd
           then L_agent
      else if bool_decide (base = u "git") then L_git
      else if in_tuple base containers then L_container
      else if in_tuple base viewers then L_viewer
      else if bool_decide (base = u "flutter") || contains (u "flutter") full_cmd then L_flutter
      else if in_tuple base script_langs then L_script
      else L_process
  end.

(** ** SSH target: [KittenController._extract_ssh_target] *)

(** The options of ssh that take an argument. *)
Definition ssh_value_flags : list str :=
  [u "-i"; u "-p"; u "-l"; u "-o"; u "-F"; u "-J"; u "-W"; u "-L"; u "-R"; u "-D"].

(** The [for i, arg in enumerate(cmdline)] loop, [skip_next] being its only
    state. *)
Fixpoint ssh_scan (skip_next : bool) (args : list str) : option str :=
  match args with
  | [] => None
  | arg :: rest =>
      if skip_next then ssh_scan false rest
      else if in_tuple arg ssh_value_flags then ssh_scan true rest
      else if startswith (u "-") arg then ssh_scan false rest
      else if bool_decide (basename arg = u "ssh") then ssh_scan false rest
      else Some arg
  end.

(** The guard of the function: the command line mentions ssh. *)
Definition mentions_ssh (cmdline : list str) : bool :=
  match cmdline with
  | [] => false
  | c0 :: _ =>
      contains (u "ssh ") (lower (join (u " ") cmdline))
      || bool_decide (basename c0 = u "ssh")
  end.

Definition _extract_ssh_target (cmdline : list str) : option str :=
  match cmdline with
  | [] => None
  | _ :: _ =>
      if negb (mentions_ssh cmdline) then None
      else ssh_scan false cmdline
  end.

(** ** Regular expressions

    The part of Python's [re] the program uses: literals, [\] escapes
    ([\b], [\d], [\xHH], escaped punctuation), [.], character classes with
    ranges, the anchor [^], and the greedy quantifiers [*], [?] and [{n}].
    A pattern is compiled from its source text and matched by backtracking
    in Python's order, so that the first match found is the one [re] finds.
    [\d] is the ASCII digits and [\w] the word characters of
    U+0000..U+00FF. *)

Module Re.

Inductive atom :=
  | Lit (c : char)
  | Any
  | Digit
  | Class (ranges : list (char * char))
  | Bol
  | WordB.

Inductive quant := One | Star | Opt.

Definition item : Type := atom * quant.

Definition is_digit (c : char) : bool := ((48 <=? c) && (c <=? 57))%N.

Definition is_word (c : char) : bool :=
  (is_digit c || (65 <=? c) && (c <=? 90) || (97 <=? c) && (c <=? 122) || (c =? 95)
   || (c =? 170) || (c =? 178) || (c =? 179) || (c =? 181) || (c =? 185) || (c =? 186)
   || (188 <=? c) && (c <=? 190) || (192 <=? c) && (c <=? 214)
   || (216 <=? c) && (c <=? 246) || (248 <=? c) && (c <=? 255))%N.

(** Does atom [a] consume character [c]?  The zero-width atoms consume
    nothing. *)
Definition consumes (a : atom) (c : char) : bool :=
  match a with
  | Lit x => (c =? x)%N
  | Any => negb (c =? 10)%N
  | Digit => is_digit c
  | Class rs => existsb (fun r => (fst r <=? c) && (c <=? snd r))%N rs
  | Bol | WordB => false
  end.

Definition word_opt (c : option char) : bool :=
  match c with Some x => is_word x | None => false end.

(** [step a k prev s]: consume one character with [a], then continue
    with [k]. *)
Definition step {R} (a : atom) (k : option char -> str -> option R)
    (s : str) : option R :=
  match s with
  | c :: s' => if consumes a c then k (Some c) s' else None
  | [] => None
  end.

(** [star a k prev s]: consume as many characters as [a] takes, the most
    first, then continue with [k]. *)
Fixpoint star {R} (a : atom) (k : option char -> str -> option R)
    (prev : option char) (s : str) {struct s} : option R :=
  match
    match s with
    | c :: s' => if consumes a c then star a k (Some c) s' else None
    | [] => None
    end
  with
  | Some r => Some r
  | None => k prev s
  end.

(** [m items prev s]: match [items] at the head of [s], [prev] being the
    character before it (none at the start of the text); the result is the
    last character consumed and the text after the match. *)
Fixpoint m (items : list item) (prev : option char) (s : str)
    : option (option char * str) :=
  match items with
  | [] => Some (prev, s)
  | (a, q) :: rest =>
      match a with
      | Bol => match prev with None => m rest prev s | Some _ => None end
      | WordB =>
          if xorb (word_opt prev) (word_opt (head s)) then m rest prev s else None
      | _ =>
          match q with
          | One => step a (m rest) s
          | Opt =>
              match step a (m rest) s with
              | Some r => Some r
              | None => m rest prev s
              end
          | Star => star a (m rest) prev s
          end
      end
  end.

Definition hex_val (c : char) : N :=
  (if is_digit c then c - 48
   else if (97 <=? c) && (c <=? 102) then c - 87
   else c - 55)%N.

Fixpoint parse_class (s : str) (acc : list (char * char))
    : option (atom * str) :=
  match s with
  | [] => None
  | a :: r =>
      if (a =? 93)%N then Some (Class acc, r)
      else match r with
           | d :: b :: r' =>
               if ((d =? 45) && negb (b =? 93))%N
               then parse_class r' (acc ++ [(a, b)])
               else parse_class r (acc ++ [(a, a)])
           | _ => parse_class r (acc ++ [(a, a)])
           end
  end.

Definition parse_atom (s : str) : option (atom * str) :=
  match s with
  | [] => None
  | c :: r =>
      if (c =? 94)%N then Some (Bol, r)
      else if (c =? 46)%N then Some (Any, r)
      else if (c =? 91)%N then parse_class r []
      else if (c =? 92)%N then
        match r with
        | e :: r' =>
            if (e =? 98)%N then Some (WordB, r')
            else if (e =? 100)%N then Some (Digit, r')
            else if (e =? 120)%N then
              match r' with
              | h1 :: h2 :: r'' => Some (Lit (16 * hex_val h1 + hex_val h2)%N, r'')
              | _ => None
              end
            else Some (Lit e, r')
        | [] => None
        end
      else Some (Lit c, r)
  end.

(** The digits of a [{n}] repetition, up to the closing brace. *)
Fixpoint parse_count (s : str) (acc : nat) : option (nat * str) :=
  match s with
  | [] => None
  | c :: r =>
      if (c =? 125)%N then Some (acc, r)
      else if is_digit c then parse_count r (10 * acc + N.to_nat (c - 48))%nat
      else None
  end.

Fixpoint parse (fuel : nat) (s : str) : option (list item) :=
  match fuel with
  | O => None
  | S fuel' =>
      match s with
      | [] => Some []
      | _ :: _ =>
          match parse_atom s with
          | None => None
          | Some (a, r) =>
              match r with
              | q :: r' =>
                  if (q =? 42)%N then
                    option_map (cons (a, Star)) (parse fuel' r')
                  else if (q =? 63)%N then
                    option_map (cons (a, Opt)) (parse fuel' r')
                  else if (q =? 123)%N then
                    match parse_count r' 0%nat with
                    | Some (n, r'') =>
                        option_map (app (replicate n (a, One))) (parse fuel' r'')
                    | None => None
                    end
                  else option_map (cons (a, One)) (parse fuel' r)
              | [] => Some [(a, One)]
              end
          end
      end
  end.

(** [re.compile(pattern)] *)
Definition compile (pattern : str) : option (list item) :=
  parse (S (length pattern)) pattern.

Fixpoint search_items (items : list item) (prev : option char) (s : str) : bool :=
  match m items prev s with
  | Some _ => true
  | None =>
      match s with
      | [] => false
      | c :: r => search_items items (Some c) r
      end
  end.

(** [re.search(pattern, s)], as a truth value. *)
Definition search (pattern s : str) : bool :=
  match compile pattern with
  | Some items => search_items items None s
  | None => false
  end.

(** Left to right, every match is dropped and the scan goes on after it;
    a character where no match starts (or only an empty one) is kept. *)
Fixpoint sub_items (fuel : nat) (items : list item) (prev : option char)
    (s : str) : str :=
  match fuel with
  | O => s
  | S fuel' =>
      match s with
      | [] => []
      | c :: r =>
          match m items prev s with
          | Some (prev', rest) =>
              if (length rest <? length s)%nat
              then sub_items fuel' items prev' rest
              else c :: sub_items fuel' items (Some c) r
          | None => c :: sub_items fuel' items (Some c) r
          end
      end
  end.

(** [re.sub(pattern, '', s)] *)
Definition sub_empty (pattern s : str) : str :=
  match compile pattern with
  | Some items => sub_items (S (length s)) items None s
  | None => s
  end.

End Re.

(** ** [truncate] *)

Definition truncate (text : str) (max_len : Z) : str :=
  match text with
  | [] => []
  | _ :: _ =>
      let text := strip (replace_char CR [] (replace_char LF (u " ") text)) in
      if max_len <? Z.of_nat (length text)
      then slice_to text (max_len - 3) ++ u "..."
      else text
  end.

(** ** Error scanner: [KittenController._detect_errors] *)

Definition error_patterns : list (str * str) :=
  [ (u "^error:", u "Error");
    (u "^error\[", u "Compiler error");
    (u "\berror\b.*:", u "Error");
    (u "\berror \[", u "Error");
    (u "^\d{2}:\d{2}:\d{2} error", u "Error");
    (u "^exception:", u "Exception");
    (u "exception:", u "Exception");
    (u "^traceback", u "Python traceback");
    (u "^fatal:", u "Fatal error");
    (u "^panic:", u "Panic/crash");
    (u "segmentation fault", u "Segmentation fault");
    (u "^permission denied", u "Permission denied");
    (u "command not found", u "Command not found");
    (u "^syntaxerror:", u "Syntax error");
    (u "compilation failed", u "Compilation failed");
    (u "build failed", u "Build failed");
    (u "tests? failed", u "Test failed");
    (u "^failed:", u "Failed");
    (u "npm err!", u "NPM error");
    (u "unhandled.*exception", u "Unhandled exception");
    (u "unhandled.*rejection", u "Unhandled rejection");
    (u "stack trace:", u "Stack trace");
    (u "^\[error\]", u "Error");
    (u "error:.*failed", u "Error") ].

Definition ansi_pattern : str := u "\x1b\[[0-9;]*m".

Definition prompt_glyphs : list str := [u "❯"; u "›"; u "$"; u "%"; u ">"].
Definition status_words : list str := [u "info"; u "warn"; u "debug"; u "notice"].

(** [s.startswith((p1, p2, ...))] *)
Definition startswith_any (ps : list str) (s : str) : bool :=
  existsb (fun p => startswith p s) ps.

(** The two [continue] guards at the head of the line loop. *)
Definition skipped_line (line_lower : str) : bool :=
  bool_decide (line_lower = []) || startswith_any prompt_glyphs line_lower
  || startswith_any status_words line_lower.

(** The inner [for pattern, description in error_patterns] loop: the first
    pattern not yet seen that the line matches. *)
Fixpoint first_fire (seen : gset str) (line_lower : str)
    (patterns : list (str * str)) : option (str * str) :=
  match patterns with
  | [] => None
  | (pattern, description) :: rest =>
      if bool_decide (pattern ∈ seen) then first_fire seen line_lower rest
      else if Re.search pattern line_lower then Some (pattern, description)
      else first_fire seen line_lower rest
  end.

(** [clean_line]: the line, stripped, without the colour sequences. *)
Definition clean_line (line : str) : str :=
  Re.sub_empty ansi_pattern (strip line).

(** [truncate(clean_line, 60)] *)
Definition excerpt (line : str) : str := truncate (clean_line line) 60.

(** [f"{description}: `{truncate(clean_line, 60)}`"] *)
Definition error_entry (description line : str) : str :=
  description ++ u ": `" ++ excerpt line ++ u "`".

(** The [for line in recent_lines] loop; its state is [errors] and
    [seen_patterns]. *)
Fixpoint scan_lines (lines : list str) (errors : list str) (seen : gset str)
    : list str :=
  match lines with
  | [] => errors
  | line :: rest =>
      let line_lower := strip (lower line) in
      if skipped_line line_lower then scan_lines rest errors seen
      else
        match first_fire seen line_lower error_patterns with
        | Some (pattern, description) =>
            let seen' := seen ∪ {[pattern]} in
            let errors' := errors ++ [error_entry description line] in
            if (3 <=? length errors')%nat then errors'
            else scan_lines rest errors' seen'
        | None =>
            if (3 <=? length errors)%nat then errors
            else scan_lines rest errors seen
        end
  end.

Definition _detect_errors (text : str) : list str :=
  match text with
  | [] => []
  | _ :: _ => scan_lines (slice_from (split LF text) (-30)) [] ∅
  end.

(** ** The session tree

    The JSON document [kitten @ ls] prints, as the program reads it.  A key
    the program reads with a default that a report can show is an [option];
    a key whose default is the empty value of its type is that type. *)

(** An identifier read with [.get(key, "?")]: a JSON integer, or the
    default. *)
Inductive ident :=
  | Int (n : Z)
  | Missing.

(** [f"{x}"] / [str(x)] *)
Definition show (x : ident) : str :=
  match x with
  | Int n => str_of_Z n
  | Missing => u "?"
  end.

(** Python's truth value of such an identifier. *)
Definition truthy (x : ident) : bool :=
  match x with
  | Int n => negb (n =? 0)
  | Missing => true
  end.

Record ProcessInfo := {
  p_pid : option Z;
  p_cwd : option str;
  p_cmdline : list str
}.

Record Window := {
  w_id : ident;
  w_title : option str;
  w_cwd : option str;
  w_pid : ident;
  w_is_focused : bool;
  w_is_active : bool;
  w_is_self : bool;
  w_at_prompt : bool;
  w_columns : ident;
  w_lines : ident;
  w_created_at : Z;
  w_env : gmap str str;
  w_foreground_processes : list ProcessInfo
}.

Record Tab := {
  t_id : ident;
  t_title : option str;
  t_is_active : bool;
  t_layout : option str;
  t_windows : list Window
}.

Record OSWindow := {
  o_id : ident;
  o_is_focused : bool;
  o_tabs : list Tab
}.

(** ** The collaborators

    What the program asks of its environment during one call: the
    [kitten @] transport ([run_kitten], which already turns a timeout into
    return code 1), the JSON decoder, the clock and the VCS query. *)
Record World := {
  (** [run_kitten(args)]: return code, stdout, stderr *)
  run_kitten : list str -> Z * str * str;
  (** [json.loads]; [None] when it raises [JSONDecodeError] *)
  json_loads : str -> option (list OSWindow);
  (** [datetime.now().strftime('%Y-%m-%d %H:%M:%S')] *)
  now_stamp : str;
  (** [datetime.now()], in microseconds on the local time line *)
  now_us : Z;
  (** [datetime.fromtimestamp(ns / 1_000_000_000)], in microseconds on the
      same time line; [None] when it raises *)
  fromtimestamp_us : Z -> option Z;
  (** [git -C cwd branch --show-current]: return code and stdout; [None]
      when the call raises or times out *)
  git_show_current : str -> option (Z * str)
}.

(** ** Age formatter: [KittenController._format_age] *)

Definition US_PER_DAY : Z := 86400000000.

(** [delta.days] and [delta.seconds] of a [timedelta] of [delta] microseconds. *)
Definition delta_days (delta : Z) : Z := delta / US_PER_DAY.
Definition delta_seconds (delta : Z) : Z := (delta mod US_PER_DAY) / 1000000.

Definition _format_age (w : World) (created_at_ns : Z) : str :=
  if created_at_ns =? 0 then u "unknown"
  else
    match fromtimestamp_us w created_at_ns with
    | None => u "unknown"
    | Some created =>
        let delta := now_us w - created in
        if delta_days delta >? 0 then str_of_Z (delta_days delta) ++ u "d ago"
        else if delta_seconds delta >=? 3600
             then str_of_Z (delta_seconds delta / 3600) ++ u "h ago"
        else if delta_seconds delta >=? 60
             then str_of_Z (delta_seconds delta / 60) ++ u "m ago"
        else str_of_Z (delta_seconds delta) ++ u "s ago"
    end.

(** ** Context extractors *)

(** [KittenController._get_git_branch] *)
Definition _get_git_branch (w : World) (cwd : str) : option str :=
  match git_show_current w cwd with
  | Some (rc, stdout) =>
      if rc =? 0 then
        match strip stdout with
        | [] => None
        | branch => Some branch
        end
      else None
  | None => None
  end.

(** [KittenController._get_virtualenv] *)
Definition _get_virtualenv (env : gmap str str) : option str :=
  match default [] (env !! u "VIRTUAL_ENV") with
  | (_ :: _) as venv => Some (basename venv)
  | [] =>
      match default [] (env !! u "CONDA_DEFAULT_ENV") with
      | (_ :: _) as conda =>
          if bool_decide (conda = u "base") then None
          else Some (u "conda:" ++ conda)
      | [] => None
      end
  end.

(** ** The transport calls *)

Record KittenController := { to : option str }.

(** A Python [Optional[str]] used as a condition: set and not empty. *)
Definition nonempty (o : option str) : option str :=
  match o with
  | Some ((_ :: _) as s) => Some s
  | _ => None
  end.

Definition base_args (self : KittenController) : list str :=
  match nonempty (to self) with
  | Some t => [u "--to"; t]
  | None => []
  end.

(** [KittenController._run] *)
Definition _run (w : World) (self : KittenController) (args : list str)
    : Z * str * str :=
  run_kitten w (base_args self ++ args).

(** What [ls] returns: the decoded document, or the dictionary with an
    ["error"] key (and ["raw"], for a document that does not decode). *)
Inductive ls_result :=
  | LsError (error : str) (raw : option str)
  | LsData (data : list OSWindow).

Definition opt_args (flag : str) (o : option str) : list str :=
  match nonempty o with
  | Some v => [flag; v]
  | None => []
  end.

(** [KittenController.ls] *)
Definition ls (w : World) (self : KittenController)
    (match_ match_tab : option str) : ls_result :=
  let args := [u "ls"] ++ opt_args (u "--match") match_
                       ++ opt_args (u "--match-tab") match_tab in
  let '(rc, stdout, stderr) := _run w self args in
  if negb (rc =? 0) then
    LsError (match stderr with [] => u "Failed to list windows" | _ => stderr end) None
  else
    match json_loads w stdout with
    | Some data => LsData data
    | None => LsError (u "Invalid JSON response") (Some stdout)
    end.

(** The arguments [get_text] passes to [kitten @]. *)
Definition get_text_args (match_ : option str) (extent : str) (ansi : bool)
    (window_id : option ident) : list str :=
  [u "get-text"]
  ++ match window_id with
     | Some i =>
         if truthy i then [u "--match"; u "id:" ++ show i]
         else opt_args (u "--match") match_
     | None => opt_args (u "--match") match_
     end
  ++ [u "--extent"; extent]
  ++ (if ansi then [u "--ansi"] else []).

(** [KittenController.get_text] *)
Definition get_text (w : World) (self : KittenController)
    (match_ : option str) (extent : str) (ansi : bool)
    (window_id : option ident) : str :=
  let '(rc, stdout, stderr) :=
    _run w self (get_text_args match_ extent ansi window_id) in
  if negb (rc =? 0) then u "Error: " ++ stderr else stdout.

(** ** Report synthesizer: [KittenController.summary] *)

(** The variables the window loop updates. *)
Record report_state := {
  output_parts : list str;
  window_count : Z;
  error_windows : list ident;
  ready_windows : list ident
}.

Definition status_of (win : Window) : str :=
  if w_is_focused win then u "🟢 FOCUSED"
  else if w_is_active win then u "🟡 ACTIVE"
  else u "⚪ IDLE".

Definition prompt_indicator_of (win : Window) : str :=
  if w_at_prompt win then u "✅ READY" else u "⏳ BUSY".

(** The lines of one optional row of the table, written when the value is
    set and not empty. *)
Definition optional_row (name : str) (value : option str) : list str :=
  match nonempty value with
  | Some v => [u "| **" ++ name ++ u "** | `" ++ v ++ u "` |"]
  | None => []
  end.

(** The fenced tail of the window's text, or the notice that there is
    none. *)
Definition output_block (text : str) (lines : Z) : list str :=
  match text with
  | _ :: _ =>
      if negb (startswith (u "Error:") text) then
        let text_lines := split LF (rstrip_char LF text) in
        let clipped := lines <? Z.of_nat (length text_lines) in
        (if clipped
         then [u "*(...truncated, showing last " ++ str_of_Z lines ++ u " lines)*" ++ [LF]]
         else [])
        ++ [u "```";
            join [LF] (if clipped then slice_from text_lines (- lines) else text_lines);
            u "```"]
      else [u "*No output available*"]
  | [] => [u "*No output available*"]
  end.

(** The body of the innermost loop, for a window that is not skipped. *)
Definition window_section (w : World) (self : KittenController)
    (lines : Z) (extent : str) (tab : Tab) (win : Window)
    : list str * bool :=
  let win_id := w_id win in
  let cwd := default (u "unknown") (w_cwd win) in
  let pid := w_pid win in
  let at_prompt := w_at_prompt win in
  let '(fg_cmd, fg_cwd, fg_pid) :=
    match w_foreground_processes win with
    | p :: _ =>
        (p_cmdline p, default cwd (p_cwd p),
         match p_pid p with Some n => Int n | None => pid end)
    | [] => ([], cwd, pid)
    end in
  let process_type := _categorize_process fg_cmd in
  let fg_cmd_str :=
    match fg_cmd with [] => u "shell" | _ => join (u " ") fg_cmd end in
  let ssh_target := _extract_ssh_target fg_cmd in
  let git_branch := _get_git_branch w fg_cwd in
  let venv := _get_virtualenv (w_env win) in
  let session_age := _format_age w (w_created_at win) in
  let status := status_of win in
  let prompt_indicator := prompt_indicator_of win in
  let text := get_text w self None extent false (Some win_id) in
  let errors := match text with [] => [] | _ => _detect_errors text end in
  ( [ u "## Window " ++ show win_id ++ u " | " ++ status ++ u " | "
        ++ prompt_indicator ++ u " | " ++ process_type ++ [LF];
      u "| Property | Value |";
      u "|----------|-------|";
      u "| **Window ID** | `" ++ show win_id ++ u "` |";
      u "| **Status** | " ++ prompt_indicator ++ u " - "
        ++ (if at_prompt then u "Can receive commands" else u "Running a process")
        ++ u " |";
      u "| **Process** | " ++ process_type ++ u " |";
      u "| **Tab** | " ++ show (t_id tab) ++ u " ("
        ++ truncate (default (u "Untitled") (t_title tab)) 30 ++ u ") |";
      u "| **Size** | " ++ show (w_columns win) ++ u "x" ++ show (w_lines win) ++ u " |";
      u "| **CWD** | `" ++ fg_cwd ++ u "` |";
      u "| **PID** | " ++ show fg_pid ++ u " |";
      u "| **Command** | `" ++ truncate fg_cmd_str 50 ++ u "` |";
      u "| **Session Age** | " ++ session_age ++ u " |" ]
    ++ optional_row (u "Git Branch") git_branch
    ++ optional_row (u "SSH Target") ssh_target
    ++ optional_row (u "Virtual Env") venv
    ++ [ [] ]
    ++ match errors with
       | [] => []
       | _ :: _ =>
           [u "**⚠️ Errors Detected:**"] ++ map (fun err => u "- " ++ err) errors ++ [ [] ]
       end
    ++ [ u "**Quick commands:**";
         u "- Send text: `send-text -w " ++ show win_id ++ u " -e " ++ [DQUOTE]
           ++ u "your command" ++ [DQUOTE] ++ u "`";
         u "- Send Ctrl+C: `send-key -w " ++ show win_id ++ u " ctrl+c`";
         u "- Get more output: `get-text -w " ++ show win_id ++ u " -e all`";
         u "- Focus: `focus -w " ++ show win_id ++ u "`";
         [] ]
    ++ output_block text lines
    ++ [ [LF] ++ u "---" ++ [LF] ],
    match errors with [] => false | _ :: _ => true end ).

(** One turn of [for win in tab.get("windows", [])]. *)
Definition summary_window (w : World) (self : KittenController)
    (lines : Z) (extent : str) (exclude_self : bool) (tab : Tab)
    (st : report_state) (win : Window) : report_state :=
  if exclude_self && w_is_self win then st
  else
    let '(section, has_errors) := window_section w self lines extent tab win in
    {| output_parts := output_parts st ++ section;
       window_count := window_count st + 1;
       error_windows :=
         if has_errors then error_windows st ++ [w_id win] else error_windows st;
       ready_windows :=
         if w_at_prompt win then ready_windows st ++ [w_id win]
         else ready_windows st |}.

Definition summary_tab (w : World) (self : KittenController)
    (lines : Z) (extent : str) (exclude_self : bool)
    (st : report_state) (tab : Tab) : report_state :=
  fold_left (summary_window w self lines extent exclude_self tab) (t_windows tab) st.

Definition summary_os_window (w : World) (self : KittenController)
    (lines : Z) (extent : str) (exclude_self : bool)
    (st : report_state) (os_win : OSWindow) : report_state :=
  fold_left (summary_tab w self lines extent exclude_self) (o_tabs os_win) st.

Definition summary_header (w : World) (lines : Z) (extent : str) : list str :=
  [ u "# Kitty Terminal Summary" ++ [LF];
    u "*Generated: " ++ now_stamp w ++ u "*" ++ [LF];
    u "*Showing last " ++ str_of_Z lines ++ u " lines from each window (extent: "
      ++ extent ++ u ")*" ++ [LF];
    u "---" ++ [LF] ].

Definition no_windows_notice : str :=
  u "*No windows found (or all windows excluded)*".

(** The aggregate block that closes a report with windows. *)
Definition summary_block (st : report_state) : list str :=
  [ [LF] ++ u "## Summary" ++ [LF];
    u "- **Total windows:** " ++ str_of_Z (window_count st);
    u "- **Ready for input:** "
      ++ str_of_Z (Z.of_nat (length (ready_windows st))) ++ u " windows: "
      ++ join (u ", ") (map show (take 10 (ready_windows st))) ]
  ++ match error_windows st with
     | [] => []
     | _ :: _ =>
         [ u "- **⚠️ Windows with errors:** "
             ++ str_of_Z (Z.of_nat (length (error_windows st))) ++ u " windows: "
             ++ join (u ", ") (map show (error_windows st)) ]
     end.

(** The state after the three nested loops. *)
Definition summary_walk (w : World) (self : KittenController)
    (lines : Z) (extent : str) (exclude_self : bool) (data : list OSWindow)
    : report_state :=
  fold_left (summary_os_window w self lines extent exclude_self) data
    {| output_parts := summary_header w lines extent;
       window_count := 0;
       error_windows := [];
       ready_windows := [] |}.

Definition summary (w : World) (self : KittenController)
    (lines : Z) (extent : str) (exclude_self : bool) : str :=
  match ls w self None None with
  | LsError error _ => u "Error: " ++ error
  | LsData data =>
      let st := summary_walk w self lines extent exclude_self data in
      join [LF]
        (output_parts st
         ++ if window_count st =? 0 then [no_windows_notice] else summary_block st)
  end.

(** ** The specification's reading of the SSH-target walk

    The walk as the specification words it, by position in the command
    line rather than by a loop with a flag.  A token is the _value_ of an
    option when the token before it is a value-consuming option that is not
    itself such a value.  The _ssh invocation token_ is the token that
    invokes ssh: the first token, outside the flags and the values, whose
    path base name is ssh, in any case, as the guard of the function asks
    for ["ssh"] case-insensitively.  A token is skipped when it is a value,
    a flag (leading ["-"]) or the ssh invocation token; the target is the
    first token that is not skipped. *)

Fixpoint is_value_at (cmdline : list str) (i : nat) : bool :=
  match i with
  | O => false
  | S j =>
      match cmdline !! j with
      | Some a => in_tuple a ssh_value_flags && negb (is_value_at cmdline j)
      | None => false
      end
  end.

(** The token names ssh: its base name is ssh, in any case. *)
Definition names_ssh (tok : str) : bool :=
  bool_decide (basename (lower tok) = u "ssh").

(** The position of the ssh invocation token among [args], the tokens at
    positions [i], [i+1], ... of [cmdline]. *)
Fixpoint invocation_from (cmdline : list str) (i : nat) (args : list str)
    : option nat :=
  match args with
  | [] => None
  | tok :: rest =>
      if negb (is_value_at cmdline i) && negb (startswith (u "-") tok)
         && names_ssh tok
      then Some i
      else invocation_from cmdline (S i) rest
  end.

Definition ssh_invocation (cmdline : list str) : option nat :=
  invocation_from cmdline 0 cmdline.

Definition skipped_at (cmdline : list str) (i : nat) (tok : str) : bool :=
  is_value_at cmdline i || startswith (u "-") tok
  || bool_decide (ssh_invocation cmdline = Some i).

(** The tokens of [args], which sit at positions [i], [i+1], ... of
    [cmdline], that are not skipped. *)
Fixpoint remaining_from (cmdline : list str) (i : nat) (args : list str)
    : list str :=
  match args with
  | [] => []
  | tok :: rest =>
      if skipped_at cmdline i tok then remaining_from cmdline (S i) rest
      else tok :: remaining_from cmdline (S i) rest
  end.

Definition ssh_target_spec (cmdline : list str) : option str :=
  head (remaining_from cmdline 0 cmdline).

(** ** The error scan, with the signature that fired kept by each entry

    [scan_lines] again, each entry paired with the pattern that produced
    it; [scan_trace_entries] below shows the entries are those of
    [scan_lines]. *)
Fixpoint scan_trace (lines : list str) (fired : list (str * str))
    (seen : gset str) : list (str * str) :=
  match lines with
  | [] => fired
  | line :: rest =>
      let line_lower := strip (lower line) in
      if skipped_line line_lower then scan_trace rest fired seen
      else
        match first_fire seen line_lower error_patterns with
        | Some (pattern, description) =>
            let seen' := seen ∪ {[pattern]} in
            let fired' := fired ++ [(pattern, error_entry description line)] in
            if (3 <=? length fired')%nat then fired'
            else scan_trace rest fired' seen'
        | None =>
            if (3 <=? length fired)%nat then fired
            else scan_trace rest fired seen
        end
  end.

Definition detect_trace (text : str) : list (str * str) :=
  match text with
  | [] => []
  | _ :: _ => scan_trace (slice_from (split LF text) (-30)) [] ∅
  end.

(** The signatures that fired during the scan of [text], in order. *)
Definition fired_signatures (text : str) : list str := map fst (detect_trace text).

(** ** Reading an age back

    The interval, in seconds, that a formatted age denotes: the number in
    front of the unit, times the unit; none for a text that is not of this
    form (["unknown"]). *)

Fixpoint string_of_str (s : str) : string :=
  match s with
  | [] => EmptyString
  | c :: r => String (ascii_of_N c) (string_of_str r)
  end.

Definition Z_of_str (s : str) : option Z :=
  option_map Z.of_int (NilZero.int_of_string (string_of_str s)).

Definition age_interval (age : str) : option Z :=
  let k := (length age - 5)%nat in
  match Z_of_str (take k age) with
  | Some n =>
      let unit := drop k age in
      if bool_decide (unit = u "d ago") then Some (n * 86400)
      else if bool_decide (unit = u "h ago") then Some (n * 3600)
      else if bool_decide (unit = u "m ago") then Some (n * 60)
      else if bool_decide (unit = u "s ago") then Some n
      else None
  | None => None
  end.

(** The same interval, from the time elapsed (in microseconds). *)
Definition interval_of_delta (delta : Z) : Z :=
  if delta_days delta >? 0 then delta_days delta * 86400
  else if delta_seconds delta >=? 3600 then delta_seconds delta / 3600 * 3600
  else if delta_seconds delta >=? 60 then delta_seconds delta / 60 * 60
  else delta_seconds delta.

(** ** Text with colour sequences

    A line seen as pieces of plain text (no escape character) and SGR
    sequences [ESC [ params m], whose parameters are digits and
    semicolons. *)
Inductive segment :=
  | Plain (s : str)
  | Sgr (params : str).

Definition render_segment (g : segment) : str :=
  match g with
  | Plain s => s
  | Sgr params => [ESC] ++ u "[" ++ params ++ u "m"
  end.

Definition plain_of_segment (g : segment) : str :=
  match g with
  | Plain s => s
  | Sgr _ => []
  end.

Definition is_sgr_param (c : char) : bool := Re.is_digit c || (c =? 59)%N.

Definition wf_segment (g : segment) : Prop :=
  match g with
  | Plain s => ESC ∉ s
  | Sgr params => Forall (fun c => is_sgr_param c = true) params
  end.

Definition render_segments (gs : list segment) : str := flat_map render_segment gs.
Definition plain_of_segments (gs : list segment) : str := flat_map plain_of_segment gs.

(** [text.replace('\n', ' ').replace('\r', '').strip()], the text that
    [truncate] measures. *)
Definition one_line (text : str) : str :=
  strip (replace_char CR [] (replace_char LF (u " ") text)).

(** ** The windows a report covers

    The windows of the tree in traversal order, each with its tab, without
    those the [exclude_self] guard skips. *)
Definition eligible (exclude_self : bool) (data : list OSWindow)
    : list (Tab * Window) :=
  flat_map
    (fun os_win =>
       flat_map
         (fun tab =>
            map (pair tab)
              (List.filter (fun win => negb (exclude_self && w_is_self win))
                 (t_windows tab)))
         (o_tabs os_win))
    data.

(** ** Sample sessions *)

Definition sample_window (self : bool) : Window :=
  {| w_id := Int 7; w_title := Some (u "deploy"); w_cwd := Some (u "/srv/app");
     w_pid := Int 4242; w_is_focused := false; w_is_active := true;
     w_is_self := self; w_at_prompt := false; w_columns := Int 80;
     w_lines := Int 24; w_created_at := 0; w_env := ∅;
     w_foreground_processes :=
       [ {| p_pid := Some 4300; p_cwd := None;
            p_cmdline := [u "make"; u "all"] |} ] |}.

Definition sample_tree (self : bool) : list OSWindow :=
  [ {| o_id := Int 1; o_is_focused := true;
       o_tabs := [ {| t_id := Int 3; t_title := Some (u "main"); t_is_active := true;
                      t_layout := Some (u "tall");
                      t_windows := [sample_window self] |} ] |} ].

(** A session whose listing succeeds and whose every other call times out:
    [run_kitten] answers a timeout with [(1, "", "Command timed out")]. *)
Definition text_timeout_world (self : bool) : World :=
  {| run_kitten := fun args =>
       if bool_decide (head args = Some (u "ls")) then (0, u "[]", [])
       else (1, [], u "Command timed out");
     json_loads := fun _ => Some (sample_tree self);
     now_stamp := u "2025-01-01 12:00:00";
     now_us := 1735732800000000;
     fromtimestamp_us := fun ns => Some (ns / 1000);
     git_show_current := fun _ => None |}.

(** A session whose listing itself times out. *)
Definition ls_timeout_world : World :=
  {| run_kitten := fun _ => (1, [], u "Command timed out");
     json_loads := fun _ => None;
     now_stamp := u "2025-01-01 12:00:00";
     now_us := 1735732800000000;
     fromtimestamp_us := fun ns => Some (ns / 1000);
     git_show_current := fun _ => None |}.

Definition controller : KittenController := {| to := None |}.

(** The section of an eligible window. *)
Definition section_of (w : World) (self : KittenController)
    (lines : Z) (extent : str) (tw : Tab * Window) : list str :=
  (window_section w self lines extent tw.1 tw.2).1.

(** What a loop of the walk does to the state: from [st] to [st'] it
    appends the sections of the windows [keep] and counts them. *)
Definition appends_sections (w : World) (self : KittenController)
    (lines : Z) (extent : str) (st st' : report_state)
    (keep : list (Tab * Window)) : Prop :=
  output_parts st' = output_parts st ++ flat_map (section_of w self lines extent) keep
  /\ window_count st' = window_count st + Z.of_nat (length keep).

(** ** [format_size] *)

(** [f"{x:>4}"]: right-aligned in a field of the given width. *)
Definition rjust (width : nat) (s : str) : str :=
  replicate (width - length s) 32%N ++ s.

(** [f"{x:12}"] of a string: left-aligned in a field of the given width. *)
Definition ljust (width : nat) (s : str) : str :=
  s ++ replicate (width - length s) 32%N.

Definition size_units : list str := [u "B"; u "K"; u "M"; u "G"].

(** The [for unit in ['B', 'K', 'M', 'G']] loop, and the [T] that follows
    it. *)
Fixpoint format_size_loop (units : list str) (size_bytes : Z) : str :=
  match units with
  | [] => rjust 4 (str_of_Z size_bytes) ++ u "T"
  | unit :: rest =>
      if size_bytes <? 1024 then rjust 4 (str_of_Z size_bytes) ++ unit
      else format_size_loop rest (size_bytes / 1024)
  end.

Definition format_size (size_bytes : Z) : str :=
  format_size_loop size_units size_bytes.

(** ** The plain listing: [KittenController.ls_formatted]

    The text the call returns when [watch] is false (with [watch] set the
    function prints the same text and starts over, without returning). *)

(** [s.replace(old, new)] for any [old]: the occurrences are taken from the
    left and do not overlap; an empty [old] occurs before every character
    and at the end.  [skip] counts the characters of a match still to
    pass. *)
Fixpoint replace_from (old new : str) (skip : nat) (s : str) : str :=
  match s with
  | [] => []
  | c :: r =>
      match skip with
      | S k => replace_from old new k r
      | O =>
          if startswith old s then new ++ replace_from old new (length old - 1) r
          else c :: replace_from old new 0 r
      end
  end.

Definition replace (old new s : str) : str :=
  match old with
  | [] => new ++ flat_map (fun c => c :: new) s
  | _ :: _ => replace_from old new 0 s
  end.

(** [c * n] *)
Definition repeat_str (c : str) (n : nat) : str := concat (replicate n c).

(** The working directory as the listing shows it, before truncation:
    [cwd.replace("/Users/" + cwd.split("/")[2]
                 if cwd.startswith("/Users/") else "", "~")
     if "/Users/" in cwd else cwd] *)
Definition home_tilde (cwd : str) : str :=
  if contains (u "/Users/") cwd then
    replace (if startswith (u "/Users/") cwd
             then u "/Users/" ++ default [] (split 47%N cwd !! 2%nat)
             else [])
            (u "~") cwd
  else cwd.

Definition ls_status_of (win : Window) : str :=
  if w_is_self win then u "🔵 SELF"
  else if w_is_focused win then u "🟢 FOCUS"
  else if w_is_active win then u "🟡 ACTIVE"
  else u "⚪ IDLE".

(** A line written only when its value is not empty. *)
Definition labelled_line (label value : str) : list str :=
  match value with
  | [] => []
  | _ :: _ => [label ++ value]
  end.

(** The lines of one window. *)
Definition ls_window_lines (win : Window) : list str :=
  let win_title := truncate (default [] (w_title win)) 25 in
  let cwd :=
    match default [] (w_cwd win) with
    | [] => []
    | (_ :: _) as cwd => truncate (home_tilde cwd) 20
    end in
  let fg_cmd :=
    match w_foreground_processes win with
    | p :: _ =>
        match p_cmdline p with
        | [] => []
        | (_ :: _) as cmdline => truncate (join (u " ") cmdline) 25
        end
    | [] => []
    end in
  [ u "│  │   └── Window " ++ show (w_id win) ++ u " │ "
      ++ ljust 12 (ls_status_of win) ++ u " │ pid:" ++ show (w_pid win) ]
  ++ labelled_line (u "│  │       Title: ") win_title
  ++ labelled_line (u "│  │       CWD: ") cwd
  ++ labelled_line (u "│  │       Cmd: ") fg_cmd.

Definition ls_tab_lines (tab : Tab) : list str :=
  [ u "│  ├── Tab " ++ show (t_id tab) ++ u " "
      ++ (if t_is_active tab then u "●" else u "○")
      ++ u " [" ++ default (u "unknown") (t_layout tab) ++ u "] "
      ++ truncate (default [] (t_title tab)) 30 ]
  ++ flat_map ls_window_lines (t_windows tab).

Definition ls_os_window_lines (os_win : OSWindow) : list str :=
  [ u "┌── OS Window " ++ show (o_id os_win) ++ u " "
      ++ (if o_is_focused os_win then u "🟢" else u "⚪") ]
  ++ flat_map ls_tab_lines (o_tabs os_win)
  ++ [ u "│" ].

(** The three lines of the frame at the top. *)
Definition ls_header (w : World) : list str :=
  let title := u "║ KITTY TERMINAL MONITOR - " ++ now_stamp w in
  [ u "╔" ++ repeat_str (u "═") 76 ++ u "╗";
    title ++ repeat_str (u " ") (77 - length title) ++ u "║";
    u "╚" ++ repeat_str (u "═") 76 ++ u "╝" ].

Definition ls_formatted (w : World) (self : KittenController) : str :=
  match ls w self None None with
  | LsError error _ => u "Error: " ++ error
  | LsData data =>
      join [LF]
        (ls_header w ++ [ [] ]
         ++ flat_map ls_os_window_lines data
         ++ [ u "└" ++ repeat_str (u "─") 76 ])
  end.

(** ** What the walk records about the windows *)

(** [errors] is not empty for this window. *)
Definition has_errors_of (w : World) (self : KittenController)
    (lines : Z) (extent : str) (tw : Tab * Window) : bool :=
  (window_section w self lines extent tw.1 tw.2).2.

(** From [st] to [st'], the walk notes the identifiers of the windows
    [keep] that are at a prompt and of those that show errors. *)
Definition records_windows (w : World) (self : KittenController)
    (lines : Z) (extent : str) (st st' : report_state)
    (keep : list (Tab * Window)) : Prop :=
  ready_windows st'
  = ready_windows st
    ++ map (fun tw => w_id tw.2) (List.filter (fun tw => w_at_prompt tw.2) keep)
  /\ error_windows st'
     = error_windows st
       ++ map (fun tw => w_id tw.2)
            (List.filter (has_errors_of w self lines extent) keep).

(** The elapsed whole seconds of a time difference in microseconds. *)
Definition elapsed_seconds (delta : Z) : Z := delta / 1000000.

(** The first character, if any, is not white space. *)
Definition clean_head (s : str) : Prop :=
  forall c, head s = Some c -> is_space c = false.

(** A session in which the VCS query answers. *)
Definition git_world (rc : Z) (stdout : str) : World :=
  {| run_kitten := fun _ => (1, [], u "Command timed out");
     json_loads := fun _ => None;
     now_stamp := u "2025-01-01 12:00:00";
     now_us := 1735732800000000;
     fromtimestamp_us := fun ns => Some (ns / 1000);
     git_show_current := fun _ => Some (rc, stdout) |}.



(** The characters of U+0000..U+00FF, on which [lower] is [str.lower()]
    exactly. *)
Definition latin1 (s : str) : Prop := Forall (fun c => (c < 256)%N) s.

(** The text retrieved for the window shows errors: [_detect_errors]
    returns an entry for it. *)
Definition text_shows_errors (w : World) (self : KittenController)
    (extent : str) (tw : Tab * Window) : bool :=
  match _detect_errors (get_text w self None extent false (Some (w_id tw.2))) with
  | [] => false
  | _ :: _ => true
  end.

(** ** Properties *)

(** *** Process classifier *)

Lemma in_tuple_true x t : in_tuple x t = true <-> x ∈ t.
Proof. unfold in_tuple. apply bool_decide_eq_true. Qed.

(** C2 (as amended).  For every command line whose first token has base
    name [git], the classifier answers by the fixed priority order: the
    test category when the joined, lowercased command line contains
    ["test"], else the ssh category when it contains ["ssh "], else the
    agent category when it contains ["codex"] or ["claude"], and the vcs
    category in every other case. *)
Theorem git_classified_by_priority cmdline :
  base_of cmdline = u "git" ->
  _categorize_process cmdline =
    if contains (u "test") (full_cmd_of cmdline) then L_test
    else if contains (u "ssh ") (full_cmd_of cmdline) then L_ssh
    else if contains (u "codex") (full_cmd_of cmdline)
            || contains (u "claude") (full_cmd_of cmdline) then L_agent
    else L_git.
Proof.
  intros Hb. destruct cmdline as [|c0 rest]; [discriminate Hb|].
  unfold _categorize_process. rewrite Hb.
  generalize (full_cmd_of (c0 :: rest)); intros full.
  change (in_tuple (u "git") shells) with false.
  change (in_tuple (u "git") editors) with false.
  change (in_tuple (u "git") build_tools) with false.
  change (in_tuple (u "git") test_runners) with false.
  change (in_tuple (u "git") servers) with false.
  change (in_tuple (u "git") agents) with false.
  change (bool_decide (u "git" = u "ssh")) with false.
  change (bool_decide (u "git" = u "git")) with true.
  cbn [orb andb].
  reflexivity.
Qed.

Lemma git_classified_by_priority_witness :
  base_of [u "git"; u "commit"] = u "git"
  /\ _categorize_process [u "git"; u "commit"] = L_git.
Proof.
  split; [reflexivity|].
  rewrite (git_classified_by_priority [u "git"; u "commit"] eq_refl).
  reflexivity.
Defined.

(** C2 as stated fails: [git commit -m "fix test"] has first token [git]
    and is classified as a test runner, not as vcs. *)
Lemma git_not_always_vcs :
  base_of [u "git"; u "commit"; u "-m"; u "fix test"] = u "git"
  /\ _categorize_process [u "git"; u "commit"; u "-m"; u "fix test"] = L_test
  /\ L_test <> L_git.
Proof. repeat split; [reflexivity..|discriminate]. Qed.

(** C4.  [npm run test:unit] is classified as build: [npm] is in the build
    set, the substring ["test"] does occur in the command line, and the
    build rule is tried before the test rule. *)
Theorem npm_run_test_is_build :
  _categorize_process [u "npm"; u "run"; u "test:unit"] = L_build
  /\ in_tuple (base_of [u "npm"; u "run"; u "test:unit"]) build_tools = true
  /\ contains (u "test") (full_cmd_of [u "npm"; u "run"; u "test:unit"]) = true.
Proof. repeat split; reflexivity. Qed.

(** *** SSH target *)

Lemma value_flag_is_flag a :
  in_tuple a ssh_value_flags = true -> startswith (u "-") a = true.
Proof.
  rewrite in_tuple_true. unfold ssh_value_flags.
  rewrite !elem_of_cons, elem_of_nil.
  intros H; repeat destruct H as [->|H]; try reflexivity; destruct H.
Qed.

(** The token was skipped: the target comes from the rest of the loop. *)
Ltac from_rest IH H :=
  destruct (IH _ H) as (? & ? & ?); split; [by right|done].

Lemma ssh_scan_some skip args t :
  ssh_scan skip args = Some t ->
  t ∈ args /\ startswith (u "-") t = false /\ basename t <> u "ssh".
Proof.
  revert skip. induction args as [|arg rest IH]; intros skip H; [discriminate|].
  cbn [ssh_scan] in H.
  destruct skip; [from_rest IH H|].
  destruct (in_tuple arg ssh_value_flags); [from_rest IH H|].
  destruct (startswith (u "-") arg) eqn:Hflag; [from_rest IH H|].
  destruct (bool_decide (basename arg = u "ssh")) eqn:Hssh; [from_rest IH H|].
  injection H as <-. apply bool_decide_eq_false in Hssh.
  split; [by left|done].
Qed.

(** C10.  Whenever the extraction returns a target, the target is a token
    of the command line that does not start with ["-"] and whose path base
    name is not ["ssh"]. *)
Theorem ssh_target_is_plain_token cmdline t :
  _extract_ssh_target cmdline = Some t ->
  t ∈ cmdline /\ startswith (u "-") t = false /\ basename t <> u "ssh".
Proof.
  unfold _extract_ssh_target. destruct cmdline as [|c0 rest]; [discriminate|].
  destruct (negb (mentions_ssh (c0 :: rest))); [discriminate|].
  apply ssh_scan_some.
Qed.

(** For [bash -c "ssh host"] the target is [bash], a token of the outer
    command, not the destination inside the quoted command. *)
Lemma ssh_target_is_plain_token_witness :
  _extract_ssh_target [u "bash"; u "-c"; u "ssh host"] = Some (u "bash")
  /\ u "bash" ∈ [u "bash"; u "-c"; u "ssh host"]
  /\ startswith (u "-") (u "bash") = false
  /\ basename (u "bash") <> u "ssh".
Proof.
  split; [reflexivity|].
  exact (ssh_target_is_plain_token [u "bash"; u "-c"; u "ssh host"] (u "bash") eq_refl).
Defined.

(** Where the test of the loop for the ssh command (base name exactly
    [ssh], at any position) singles out the ssh invocation token and no
    other, the loop returns what the specification describes. *)
Lemma ssh_scan_remaining cmdline pre args :
  cmdline = pre ++ args ->
  (forall i tok,
     cmdline !! i = Some tok ->
     is_value_at cmdline i = false ->
     startswith (u "-") tok = false ->
     bool_decide (basename tok = u "ssh")
     = bool_decide (ssh_invocation cmdline = Some i)) ->
  ssh_scan (is_value_at cmdline (length pre)) args
  = head (remaining_from cmdline (length pre) args).
Proof.
  intros Hc Hsame. revert pre Hc.
  induction args as [|tok rest IH]; intros pre Hc; [reflexivity|].
  assert (Hlook : cmdline !! length pre = Some tok).
  { subst cmdline. by rewrite list_lookup_middle. }
  assert (Hnext : is_value_at cmdline (S (length pre))
                  = in_tuple tok ssh_value_flags && negb (is_value_at cmdline (length pre))).
  { cbn [is_value_at]. by rewrite Hlook. }
  specialize (IH (pre ++ [tok])).
  rewrite length_app in IH. cbn [length] in IH.
  replace (length pre + 1)%nat with (S (length pre)) in IH by lia.
  rewrite Hnext in IH.
  assert (Hc' : cmdline = (pre ++ [tok]) ++ rest) by (by rewrite <- app_assoc).
  specialize (IH Hc').
  cbn [ssh_scan remaining_from]. unfold skipped_at.
  destruct (is_value_at cmdline (length pre)) eqn:Hv.
  { cbn [orb]. rewrite andb_false_r in IH. exact IH. }
  cbn [orb]. rewrite andb_true_r in IH.
  destruct (in_tuple tok ssh_value_flags) eqn:Hvf.
  { rewrite (value_flag_is_flag _ Hvf). cbn [orb]. exact IH. }
  destruct (startswith (u "-") tok) eqn:Hflag; [exact IH|].
  cbn [orb]. rewrite <- (Hsame (length pre) tok Hlook Hv Hflag).
  destruct (bool_decide (basename tok = u "ssh")); [exact IH|].
  reflexivity.
Qed.

Lemma ssh_target_meets_spec_when cmdline :
  mentions_ssh cmdline = true ->
  (forall i tok,
     cmdline !! i = Some tok ->
     is_value_at cmdline i = false ->
     startswith (u "-") tok = false ->
     bool_decide (basename tok = u "ssh")
     = bool_decide (ssh_invocation cmdline = Some i)) ->
  _extract_ssh_target cmdline = ssh_target_spec cmdline.
Proof.
  intros Hm Hsame. unfold _extract_ssh_target, ssh_target_spec.
  destruct cmdline as [|c0 rest]; [reflexivity|].
  rewrite Hm. cbn [negb].
  exact (ssh_scan_remaining (c0 :: rest) [] (c0 :: rest) eq_refl Hsame).
Qed.

(** C5.  The scenario of the specification holds: with the key file and
    the port as values, the target is [prod.example.com], for the code as
    for the specification.  The general statement does not hold of the
    code: [SSH host] passes the guard, which lowercases the command line,
    but the loop compares the base name with [ssh] as it is spelled, so the
    ssh invocation token is not skipped and comes back as the target, where
    the specification gives [host]. *)
Theorem ssh_invocation_case_missed :
  _extract_ssh_target
    [u "ssh"; u "-i"; u "/k.pem"; u "-p"; u "2222"; u "prod.example.com"]
  = Some (u "prod.example.com")
  /\ ssh_target_spec
       [u "ssh"; u "-i"; u "/k.pem"; u "-p"; u "2222"; u "prod.example.com"]
     = Some (u "prod.example.com")
  /\ mentions_ssh [u "SSH"; u "host"] = true
  /\ _extract_ssh_target [u "SSH"; u "host"] = Some (u "SSH")
  /\ ssh_target_spec [u "SSH"; u "host"] = Some (u "host").
Proof. repeat split; reflexivity. Qed.

(** A host that is itself called [ssh] is passed over too: the loop applies
    its test to every token, not to the invocation alone. *)
Lemma ssh_host_named_ssh :
  _extract_ssh_target [u "ssh"; u "ssh"] = None
  /\ ssh_target_spec [u "ssh"; u "ssh"] = Some (u "ssh").
Proof. split; reflexivity. Qed.

(** *** Error scanner *)

Lemma first_fire_spec seen line_lower patterns p d :
  first_fire seen line_lower patterns = Some (p, d) ->
  (p ∉ seen) /\ (p, d) ∈ patterns /\ Re.search p line_lower = true.
Proof.
  induction patterns as [|[p0 d0] rest IH]; [discriminate|].
  cbn [first_fire]. case_bool_decide as Hseen.
  - intros H. destruct (IH H) as (? & ? & ?). split_and!; [done|by right|done].
  - destruct (Re.search p0 line_lower) eqn:Hs.
    + intros [= <- <-]. split_and!; [done|by left|done].
    + intros H. destruct (IH H) as (? & ? & ?). split_and!; [done|by right|done].
Qed.

(** The trace carries the entries of the scan, in order. *)
Lemma scan_trace_entries lines fired seen :
  map snd (scan_trace lines fired seen) = scan_lines lines (map snd fired) seen.
Proof.
  revert fired seen. induction lines as [|line rest IH]; intros fired seen; [reflexivity|].
  cbn [scan_trace scan_lines].
  destruct (skipped_line (strip (lower line))); [apply IH|].
  destruct (first_fire seen (strip (lower line)) error_patterns) as [[p d]|].
  - rewrite !length_app, length_map. cbn [length].
    destruct (3 <=? length fired + 1)%nat.
    + by rewrite map_app.
    + rewrite IH. by rewrite map_app.
  - rewrite length_map. destruct (3 <=? length fired)%nat; [reflexivity|apply IH].
Qed.

Lemma detect_trace_entries text : map snd (detect_trace text) = _detect_errors text.
Proof.
  unfold detect_trace, _detect_errors. destruct text; [reflexivity|].
  apply scan_trace_entries.
Qed.

(** No signature is recorded twice: a signature that fired is in
    [seen_patterns], and the inner loop passes over the patterns in it. *)
Lemma scan_trace_nodup lines fired seen :
  NoDup (map fst fired) ->
  (forall p, p ∈ map fst fired -> p ∈ seen) ->
  NoDup (map fst (scan_trace lines fired seen)).
Proof.
  revert fired seen. induction lines as [|line rest IH]; intros fired seen Hnd Hseen;
    [exact Hnd|].
  cbn [scan_trace].
  destruct (skipped_line (strip (lower line))); [by apply IH|].
  destruct (first_fire seen (strip (lower line)) error_patterns) as [[p d]|] eqn:Hf.
  - apply first_fire_spec in Hf as (Hnew & _ & _).
    assert (Hnd' : NoDup (map fst (fired ++ [(p, error_entry d line)]))).
    { rewrite map_app. apply NoDup_app. split_and!; [done| |apply NoDup_singleton].
      intros q Hq Hq'. apply list_elem_of_singleton in Hq'. subst q. auto. }
    destruct (3 <=? length (fired ++ [(p, error_entry d line)]))%nat; [done|].
    apply IH; [done|].
    intros q. rewrite map_app, elem_of_app. intros [Hq|Hq].
    + apply elem_of_union_l. auto.
    + apply list_elem_of_singleton in Hq. subst q. apply elem_of_union_r.
      by apply elem_of_singleton.
  - destruct (3 <=? length fired)%nat; [done|by apply IH].
Qed.

Lemma fired_signatures_nodup text : NoDup (fired_signatures text).
Proof.
  unfold fired_signatures, detect_trace. destruct text; [apply NoDup_nil_2|].
  apply scan_trace_nodup; [apply NoDup_nil_2|].
  intros p Hp. by apply elem_of_nil in Hp.
Qed.

Lemma split_no_sep sep a : sep ∉ a -> split sep a = [a].
Proof.
  induction a as [|c a IH]; [reflexivity|].
  intros Hn. apply not_elem_of_cons in Hn as [Hc Ha].
  cbn [split]. destruct (N.eqb_spec c sep) as [->|_]; [done|].
  by rewrite IH.
Qed.

Lemma split_app_sep sep a b :
  sep ∉ a -> split sep (a ++ sep :: b) = a :: split sep b.
Proof.
  induction a as [|c a IH]; intros Hn.
  - cbn. by rewrite N.eqb_refl.
  - apply not_elem_of_cons in Hn as [Hc Ha].
    cbn [app split]. destruct (N.eqb_spec c sep) as [->|_]; [done|].
    by rewrite IH.
Qed.

(** The blob of the scenario. *)
Lemma detect_errors_build_log :
  _detect_errors
    (u "Building..." ++ [LF] ++ u "ERROR: compilation failed" ++ [LF]
       ++ u "make: *** Error 1")
  = [u "Error: `ERROR: compilation failed`"]
  /\ fired_signatures
       (u "Building..." ++ [LF] ++ u "ERROR: compilation failed" ++ [LF]
          ++ u "make: *** Error 1")
     = [u "^error:"].
Proof. split; vm_compute; reflexivity. Qed.

(** C3 (as amended).  For the text blob made of the lines ["Building..."],
    ["ERROR: compilation failed"], ["make: *** Error 1"], the scanner
    returns exactly one entry; it is produced by the first signature of the
    fixed list, [^error:], and so carries the label ["Error"]. *)
Theorem build_log_reports_error_signature :
  _detect_errors
    (u "Building..." ++ [LF] ++ u "ERROR: compilation failed" ++ [LF]
       ++ u "make: *** Error 1")
  = [error_entry (u "Error") (u "ERROR: compilation failed")]
  /\ detect_trace
       (u "Building..." ++ [LF] ++ u "ERROR: compilation failed" ++ [LF]
          ++ u "make: *** Error 1")
     = [(u "^error:", u "Error: `ERROR: compilation failed`")].
Proof. split; vm_compute; reflexivity. Qed.

(** C3 as stated fails: the one entry is not the one of the
    ["compilation failed"] signature, which is never reached. *)
Lemma build_log_not_compilation_failed :
  _detect_errors
    (u "Building..." ++ [LF] ++ u "ERROR: compilation failed" ++ [LF]
       ++ u "make: *** Error 1")
  <> [error_entry (u "Compilation failed") (u "ERROR: compilation failed")]
  /\ u "compilation failed"
     ∉ fired_signatures
         (u "Building..." ++ [LF] ++ u "ERROR: compilation failed" ++ [LF]
            ++ u "make: *** Error 1").
Proof.
  destruct detect_errors_build_log as [-> ->].
  split; [vm_compute; discriminate|].
  intros H. apply list_elem_of_singleton in H. vm_compute in H. discriminate H.
Qed.

(** The scan of a single line that fires. *)
Lemma scan_trace_single line p :
  map fst (scan_trace [line] [] ∅) = [p] ->
  skipped_line (strip (lower line)) = false
  /\ exists d, first_fire ∅ (strip (lower line)) error_patterns = Some (p, d).
Proof.
  cbn [scan_trace].
  destruct (skipped_line (strip (lower line))); [discriminate|].
  destruct (first_fire ∅ (strip (lower line)) error_patterns) as [[p' d]|];
    [|discriminate].
  cbn. intros [= ->]. eauto.
Qed.

(** C6.  The entries of the scan are those of the trace; no signature
    occurs twice in the trace of any text; and when a line that fires
    signature [p] is fed twice, exactly one entry of the trace comes from
    [p]. *)
Theorem dedup_by_signature :
  (forall text, map snd (detect_trace text) = _detect_errors text)
  /\ (forall text, NoDup (fired_signatures text))
  /\ (forall line p,
        LF ∉ line ->
        fired_signatures line = [p] ->
        exists entry,
          filter (fun pe => pe.1 = p) (detect_trace (line ++ [LF] ++ line))
          = [(p, entry)]).
Proof.
  split_and!; [exact detect_trace_entries|exact fired_signatures_nodup|].
  intros line p Hlf Hone.
  assert (H1 : map fst (scan_trace [line] [] ∅) = [p]).
  { revert Hone. unfold fired_signatures, detect_trace.
    destruct line as [|c l]; [discriminate|].
    by rewrite (split_no_sep LF (c :: l) Hlf). }
  apply scan_trace_single in H1 as (Hskip & d & Hfire).
  assert (Hd : detect_trace (line ++ [LF] ++ line) = scan_trace [line; line] [] ∅).
  { unfold detect_trace. change (line ++ [LF] ++ line) with (line ++ LF :: line).
    destruct (line ++ LF :: line) eqn:E; [by destruct line|].
    rewrite <- E.
    pose proof (split_app_sep LF line line Hlf) as Hs.
    rewrite (split_no_sep LF line Hlf) in Hs.
    unfold char, str in *. by rewrite Hs. }
  rewrite Hd. cbn [scan_trace]. rewrite Hskip, Hfire. cbn [app length Nat.leb].
  destruct (first_fire (∅ ∪ {[p]}) (strip (lower line)) error_patterns)
    as [[p2 d2]|] eqn:Hf2.
  - apply first_fire_spec in Hf2 as (Hnew & _ & _).
    assert (p2 <> p).
    { intros ->. apply Hnew. apply elem_of_union_r. by apply elem_of_singleton. }
    cbn [app length Nat.leb].
    exists (error_entry d line).
    rewrite filter_cons_True by done.
    rewrite filter_cons_False by done.
    by rewrite filter_nil.
  - exists (error_entry d line).
    rewrite filter_cons_True by done.
    by rewrite filter_nil.
Qed.

(** [error: foo] fed twice: the first copy fires [^error:], the second one
    the next signature it matches; one entry comes from [^error:]. *)
Lemma dedup_by_signature_witness :
  (LF ∉ u "error: foo")
  /\ fired_signatures (u "error: foo") = [u "^error:"]
  /\ exists entry,
       filter (fun pe => pe.1 = u "^error:")
         (detect_trace (u "error: foo" ++ [LF] ++ u "error: foo"))
       = [(u "^error:", entry)].
Proof.
  assert (Hlf : LF ∉ u "error: foo").
  { intros H. vm_compute in H. repeat (apply elem_of_cons in H as [H|H]; [discriminate H|]).
    by apply elem_of_nil in H. }
  split_and!; [exact Hlf|reflexivity|].
  exact (proj2 (proj2 dedup_by_signature) (u "error: foo") (u "^error:") Hlf eq_refl).
Defined.

(** *** The excerpt of an entry *)

Lemma truncate_one_line text max_len :
  0 <= max_len ->
  truncate text max_len =
    if max_len <? Z.of_nat (length (one_line text))
    then slice_to (one_line text) (max_len - 3) ++ u "..."
    else one_line text.
Proof.
  intros Hm. destruct text as [|c t]; [|reflexivity].
  change (one_line []) with (@nil N). cbn [truncate length].
  change (Z.of_nat 0) with 0.
  destruct (Z.ltb_spec max_len 0); [lia|reflexivity].
Qed.

Lemma truncate_length text max_len :
  3 <= max_len -> Z.of_nat (length (truncate text max_len)) <= max_len.
Proof.
  intros Hm. rewrite truncate_one_line by lia.
  destruct (Z.ltb_spec max_len (Z.of_nat (length (one_line text)))); [|lia].
  unfold slice_to. destruct (Z.leb_spec 0 (max_len - 3)); [|lia].
  rewrite length_app, length_take. change (length (u "...")) with 3%nat. lia.
Qed.

Lemma compile_ansi_pattern :
  Re.compile ansi_pattern
  = Some [ (Re.Lit ESC, Re.One); (Re.Lit 91%N, Re.One);
           (Re.Class [(48%N, 57%N); (59%N, 59%N)], Re.Star);
           (Re.Lit 109%N, Re.One) ].
Proof. reflexivity. Qed.

Lemma sgr_params_consumed (params rest : str) prev :
  Forall (fun c => is_sgr_param c = true) params ->
  Re.star (Re.Class [(48%N, 57%N); (59%N, 59%N)]) (Re.m [(Re.Lit 109%N, Re.One)]) prev
    (params ++ 109%N :: rest)
  = Some (Some 109%N, rest).
Proof.
  intros Hp. revert prev. induction Hp as [|c params Hc _ IH]; intros prev.
  - reflexivity.
  - cbn [app Re.star].
    assert (Hcons : Re.consumes (Re.Class [(48%N, 57%N); (59%N, 59%N)]) c = true).
    { unfold is_sgr_param, Re.is_digit in Hc. cbn.
      destruct ((48 <=? c)%N && (c <=? 57)%N); [reflexivity|].
      cbn in Hc |- *. apply N.eqb_eq in Hc as ->. reflexivity. }
    rewrite Hcons. by rewrite IH.
Qed.

Lemma sgr_matched (params rest : str) prev items :
  Re.compile ansi_pattern = Some items ->
  Forall (fun c => is_sgr_param c = true) params ->
  Re.m items prev (render_segment (Sgr params) ++ rest) = Some (Some 109%N, rest).
Proof.
  rewrite compile_ansi_pattern. intros [= <-] Hp.
  unfold render_segment. change (u "[") with [91%N]. change (u "m") with [109%N].
  rewrite <- !app_assoc. cbn [app Re.m Re.step Re.consumes].
  rewrite !N.eqb_refl.
  exact (sgr_params_consumed params rest (Some 91%N) Hp).
Qed.

Lemma sgr_not_matched c (s : str) prev items :
  Re.compile ansi_pattern = Some items ->
  c <> ESC ->
  Re.m items prev (c :: s) = None.
Proof.
  rewrite compile_ansi_pattern. intros [= <-] Hc.
  cbn [Re.m Re.step Re.consumes].
  by destruct (N.eqb_spec c ESC).
Qed.

(** On a text made of plain pieces and SGR sequences, the substitution
    returns the plain pieces. *)
Lemma sub_items_segments items segs :
  Re.compile ansi_pattern = Some items ->
  Forall wf_segment segs ->
  forall fuel prev,
    (length (render_segments segs) < fuel)%nat ->
    Re.sub_items fuel items prev (render_segments segs) = plain_of_segments segs.
Proof.
  intros Hitems Hwf. induction Hwf as [|g segs Hg _ IH]; intros fuel prev Hfuel.
  { destruct fuel; reflexivity. }
  unfold render_segments, plain_of_segments in *. cbn [flat_map].
  destruct g as [p|params]; cbn [wf_segment] in Hg.
  - cbn [render_segment plain_of_segment] in *.
    revert fuel prev Hfuel.
    induction p as [|c p IHp]; intros fuel prev Hfuel; [by apply IH|].
    apply not_elem_of_cons in Hg as [Hc Hp].
    destruct fuel as [|fuel]; [lia|].
    cbn [app Re.sub_items].
    rewrite (sgr_not_matched c _ prev items Hitems) by done.
    f_equal. apply IHp; [done|].
    cbn [flat_map render_segment app length] in Hfuel |- *. lia.
  - cbn [plain_of_segment app].
    destruct fuel as [|fuel]; [lia|].
    pose proof (sgr_matched params (flat_map render_segment segs) prev items Hitems Hg)
      as Hm.
    cbn [flat_map] in Hfuel. rewrite length_app in Hfuel.
    assert (Hlen : (2 < length (render_segment (Sgr params)))%nat).
    { unfold render_segment. change (u "[") with [91%N]. change (u "m") with [109%N].
      rewrite !length_app. cbn [length]. lia. }
    destruct (render_segment (Sgr params) ++ flat_map render_segment segs)
      as [|c rest] eqn:E.
    { apply (f_equal length) in E. rewrite length_app in E. cbn in E. lia. }
    cbn [Re.sub_items]. rewrite Hm.
    assert (Hlt : (length (flat_map render_segment segs) <? length (c :: rest))%nat = true).
    { apply Nat.ltb_lt. rewrite <- E, length_app. lia. }
    rewrite Hlt. apply IH. lia.
Qed.

Lemma sub_empty_segments segs :
  Forall wf_segment segs ->
  Re.sub_empty ansi_pattern (render_segments segs) = plain_of_segments segs.
Proof.
  intros Hwf. unfold Re.sub_empty.
  destruct (Re.compile ansi_pattern) as [items|] eqn:Hc.
  - apply (sub_items_segments items segs Hc Hwf). lia.
  - by rewrite compile_ansi_pattern in Hc.
Qed.

(** Every entry of the scan is built from one pattern's description and
    one of the lines scanned. *)
Lemma scan_lines_entries lines errors seen e :
  e ∈ scan_lines lines errors seen ->
  e ∈ errors
  \/ exists description line,
       description ∈ map snd error_patterns /\ line ∈ lines
       /\ e = error_entry description line.
Proof.
  revert errors seen. induction lines as [|line rest IH]; intros errors seen He;
    [by left|].
  cbn [scan_lines] in He.
  assert (Hrest : forall errors' seen',
             e ∈ scan_lines rest errors' seen' ->
             e ∈ errors'
             \/ exists description line0,
                  description ∈ map snd error_patterns /\ line0 ∈ line :: rest
                  /\ e = error_entry description line0).
  { intros errors' seen' H. destruct (IH _ _ H) as [|(d & l & ? & ? & ?)]; [by left|].
    right. exists d, l. split_and!; [done|by right|done]. }
  destruct (skipped_line (strip (lower line))); [by apply Hrest in He|].
  destruct (first_fire seen (strip (lower line)) error_patterns) as [[p d]|] eqn:Hf.
  - apply first_fire_spec in Hf as (_ & Hin & _).
    assert (Hd : d ∈ map snd error_patterns).
    { apply list_elem_of_fmap. by exists (p, d). }
    assert (Hnew : e ∈ errors ++ [error_entry d line] ->
                   e ∈ errors
                   \/ exists description line0,
                        description ∈ map snd error_patterns /\ line0 ∈ line :: rest
                        /\ e = error_entry description line0).
    { rewrite elem_of_app. intros [|H]; [by left|].
      apply list_elem_of_singleton in H. right. exists d, line.
      split_and!; [done|by left|done]. }
    destruct (3 <=? length (errors ++ [error_entry d line]))%nat; [by apply Hnew|].
    apply Hrest in He as [He|He]; [by apply Hnew|by right].
  - destruct (3 <=? length errors)%nat; [by left|by apply Hrest in He].
Qed.

Lemma elem_of_slice_from {A} (x : A) (l : list A) (start : Z) :
  x ∈ slice_from l start -> x ∈ l.
Proof.
  unfold slice_from.
  destruct (start <? 0); intros H;
    [rewrite <- (take_drop (Z.to_nat (Z.of_nat (length l) + start)) l)
    |rewrite <- (take_drop (Z.to_nat start) l)];
    apply elem_of_app; by right.
Qed.

(** X25.  Every entry the scanner returns is a label of the
    pattern table, then [: `], the excerpt of one of the lines of the text,
    and a closing back quote.  The excerpt has at most 60 characters; when
    the cleaned line is longer it is its first 57 characters and an
    ellipsis, and otherwise the cleaned line itself.  The cleaning removes
    the SGR colour sequences [ESC [ params m]: for a line made of plain
    text and such sequences, the plain text is what remains. *)
Theorem error_entry_shape text e :
  e ∈ _detect_errors text ->
  exists description line,
    description ∈ map snd error_patterns
    /\ line ∈ split LF text
    /\ e = description ++ u ": `" ++ excerpt line ++ u "`"
    /\ (length (excerpt line) <= 60)%nat
    /\ ((60 < length (one_line (clean_line line)))%nat ->
        excerpt line = take 57 (one_line (clean_line line)) ++ u "...")
    /\ ((length (one_line (clean_line line)) <= 60)%nat ->
        excerpt line = one_line (clean_line line))
    /\ (forall segs,
          Forall wf_segment segs ->
          strip line = render_segments segs ->
          clean_line line = plain_of_segments segs).
Proof.
  intros He. unfold _detect_errors in He.
  destruct text as [|c t]; [by apply elem_of_nil in He|].
  apply scan_lines_entries in He as [He|(d & line & Hd & Hline & ->)];
    [by apply elem_of_nil in He|].
  exists d, line. split_and!.
  - exact Hd.
  - exact (elem_of_slice_from _ _ _ Hline).
  - reflexivity.
  - pose proof (truncate_length (clean_line line) 60 ltac:(lia)) as H.
    unfold excerpt. lia.
  - intros Hlong. unfold excerpt. rewrite truncate_one_line by lia.
    destruct (Z.ltb_spec 60 (Z.of_nat (length (one_line (clean_line line))))); [|lia].
    reflexivity.
  - intros Hshort. unfold excerpt. rewrite truncate_one_line by lia.
    destruct (Z.ltb_spec 60 (Z.of_nat (length (one_line (clean_line line))))); [lia|].
    reflexivity.
  - intros segs Hwf Hs. unfold clean_line. rewrite Hs.
    by apply sub_empty_segments.
Qed.

(** A red [boom]: the colour sequences are gone from the entry. *)
Lemma error_entry_shape_witness :
  u "Error: `error: boom`"
    ∈ _detect_errors (u "error: " ++ [ESC] ++ u "[1;31mboom" ++ [ESC] ++ u "[0m")
  /\ exists description line,
       description ∈ map snd error_patterns
       /\ line ∈ split LF (u "error: " ++ [ESC] ++ u "[1;31mboom" ++ [ESC] ++ u "[0m")
       /\ u "Error: `error: boom`" = description ++ u ": `" ++ excerpt line ++ u "`"
       /\ (length (excerpt line) <= 60)%nat
       /\ ((60 < length (one_line (clean_line line)))%nat ->
           excerpt line = take 57 (one_line (clean_line line)) ++ u "...")
       /\ ((length (one_line (clean_line line)) <= 60)%nat ->
           excerpt line = one_line (clean_line line))
       /\ (forall segs,
             Forall wf_segment segs ->
             strip line = render_segments segs ->
             clean_line line = plain_of_segments segs).
Proof.
  assert (H : u "Error: `error: boom`"
                ∈ _detect_errors
                    (u "error: " ++ [ESC] ++ u "[1;31mboom" ++ [ESC] ++ u "[0m")).
  { assert (E : _detect_errors
                  (u "error: " ++ [ESC] ++ u "[1;31mboom" ++ [ESC] ++ u "[0m")
                = [u "Error: `error: boom`"]) by (vm_compute; reflexivity).
    rewrite E. by left. }
  split; [exact H|].
  exact (error_entry_shape _ _ H).
Defined.

(** C9.  The code departs from the claim, and from its own comment
    ("Remove ANSI codes"), at a line with an erase-line sequence
    [ESC [ 2 K]: the pattern of the substitution takes the sequences that
    end in [m] only, and this ANSI escape sequence stays in the excerpt. *)
Theorem erase_sequence_not_stripped :
  _detect_errors (u "error: " ++ [ESC] ++ u "[2Kboom")
  = [u "Error: `error: " ++ [ESC] ++ u "[2Kboom`"]
  /\ ESC ∈ u "Error: `error: " ++ [ESC] ++ u "[2Kboom`".
Proof.
  split; [vm_compute; reflexivity|].
  apply elem_of_app. right. by left.
Qed.

(** *** Age formatter *)

Lemma string_of_str_bytes s : string_of_str (bytes_of s) = s.
Proof.
  induction s as [|a s IH]; [reflexivity|].
  cbn [bytes_of string_of_str]. by rewrite ascii_N_embedding, IH.
Qed.

(** An integer printed is read back. *)
Lemma Z_of_str_of_Z n : Z_of_str (str_of_Z n) = Some n.
Proof.
  unfold Z_of_str, str_of_Z. rewrite string_of_str_bytes.
  rewrite NilZero.isi.
  - cbn [option_map]. by rewrite DecimalZ.of_to.
  - destruct n as [|p|p]; cbn; try discriminate.
    intros [= E]. by apply (DecimalPos.Unsigned.to_uint_nonnil p).
  - destruct n as [|p|p]; cbn; try discriminate.
    intros [= E]. by apply (DecimalPos.Unsigned.to_uint_nonnil p).
Qed.

Lemma age_interval_app n unit :
  length unit = 5%nat ->
  age_interval (str_of_Z n ++ unit) =
    if bool_decide (unit = u "d ago") then Some (n * 86400)
    else if bool_decide (unit = u "h ago") then Some (n * 3600)
    else if bool_decide (unit = u "m ago") then Some (n * 60)
    else if bool_decide (unit = u "s ago") then Some n
    else None.
Proof.
  intros Hu. unfold age_interval.
  rewrite length_app, Hu, Nat.add_sub.
  by rewrite take_app_length, drop_app_length, Z_of_str_of_Z.
Qed.

(** The age that is printed denotes the interval of the elapsed time. *)
Lemma format_age_interval w t created :
  t <> 0 ->
  fromtimestamp_us w t = Some created ->
  age_interval (_format_age w t) = Some (interval_of_delta (now_us w - created)).
Proof.
  intros Ht Hc. unfold _format_age, interval_of_delta.
  destruct (Z.eqb_spec t 0); [done|]. rewrite Hc.
  destruct (delta_days (now_us w - created) >? 0);
    [by rewrite age_interval_app|].
  destruct (delta_seconds (now_us w - created) >=? 3600);
    [by rewrite age_interval_app|].
  destruct (delta_seconds (now_us w - created) >=? 60);
    by rewrite age_interval_app.
Qed.





(** *** Report synthesizer *)

Section Report.

Context (w : World) (self : KittenController).
Context (lines : Z) (extent : str) (exclude_self : bool).

Local Abbreviation section := (section_of w self lines extent).
Local Abbreviation walk := (summary_walk w self lines extent exclude_self).
Local Abbreviation report := (summary w self lines extent exclude_self).
Local Abbreviation extends_by := (appends_sections w self lines extent).

Lemma extends_by_nil st : extends_by st st [].
Proof. split; cbn; [by rewrite app_nil_r|lia]. Qed.

Lemma extends_by_trans st1 st2 st3 keep1 keep2 :
  extends_by st1 st2 keep1 -> extends_by st2 st3 keep2 ->
  extends_by st1 st3 (keep1 ++ keep2).
Proof.
  intros [Ho1 Hc1] [Ho2 Hc2]. split.
  - by rewrite Ho2, Ho1, flat_map_app, <- app_assoc.
  - rewrite Hc2, Hc1, length_app. lia.
Qed.

Lemma summary_window_extends tab st win :
  extends_by st (summary_window w self lines extent exclude_self tab st win)
    (map (pair tab)
       (List.filter (fun win => negb (exclude_self && w_is_self win)) [win])).
Proof.
  unfold summary_window. cbn [List.filter].
  destruct (exclude_self && w_is_self win); cbn [negb map]; [apply extends_by_nil|].
  unfold appends_sections, section_of. cbn [flat_map length fst snd].
  destruct (window_section w self lines extent tab win) as [sec has_errors].
  cbn [output_parts window_count fst]. rewrite app_nil_r. split; [done|lia].
Qed.

Lemma summary_tab_extends tab wins st :
  extends_by st
    (fold_left (summary_window w self lines extent exclude_self tab) wins st)
    (map (pair tab)
       (List.filter (fun win => negb (exclude_self && w_is_self win)) wins)).
Proof.
  revert st. induction wins as [|win wins IH]; intros st; [apply extends_by_nil|].
  cbn [fold_left].
  change (win :: wins) with ([win] ++ wins).
  rewrite List.filter_app, map_app.
  eapply extends_by_trans; [apply summary_window_extends|apply IH].
Qed.

Lemma summary_os_window_extends tabs st :
  extends_by st
    (fold_left (summary_tab w self lines extent exclude_self) tabs st)
    (flat_map
       (fun tab =>
          map (pair tab)
            (List.filter (fun win => negb (exclude_self && w_is_self win))
               (t_windows tab)))
       tabs).
Proof.
  revert st. induction tabs as [|tab tabs IH]; intros st; [apply extends_by_nil|].
  cbn [fold_left flat_map].
  eapply extends_by_trans; [apply summary_tab_extends|apply IH].
Qed.

Lemma summary_tree_extends data st :
  extends_by st
    (fold_left (summary_os_window w self lines extent exclude_self) data st)
    (eligible exclude_self data).
Proof.
  revert st. induction data as [|os_win data IH]; intros st; [apply extends_by_nil|].
  cbn [fold_left]. unfold eligible. cbn [flat_map].
  eapply extends_by_trans; [apply summary_os_window_extends|apply IH].
Qed.

(** The walk over the whole tree: the header, then the section of every
    eligible window, in order. *)
Lemma summary_walk_eligible data :
  output_parts (walk data)
  = summary_header w lines extent ++ flat_map section (eligible exclude_self data)
  /\ window_count (walk data) = Z.of_nat (length (eligible exclude_self data)).
Proof. exact (summary_tree_extends data _). Qed.

(** C7.  When the listing succeeds and the traversal meets no eligible
    window, the report is the header followed by the single notice that no
    windows were found; there is no aggregate block. *)
Theorem no_eligible_windows_notice data :
  ls w self None None = LsData data ->
  eligible exclude_self data = [] ->
  report = join [LF] (summary_header w lines extent ++ [no_windows_notice]).
Proof.
  intros Hls Hnone. unfold summary. rewrite Hls.
  destruct (summary_walk_eligible data) as [Ho Hc].
  rewrite Ho, Hc, Hnone. cbn [flat_map length].
  by rewrite app_nil_r.
Qed.

(** A failed [get-text] call comes back as an error text... *)
Lemma get_text_failure match_ ansi window_id rc stdout stderr :
  _run w self (get_text_args match_ extent ansi window_id) = (rc, stdout, stderr) ->
  rc <> 0 ->
  get_text w self match_ extent ansi window_id = u "Error: " ++ stderr.
Proof.
  intros Hrun Hrc. unfold get_text. rewrite Hrun.
  by destruct (Z.eqb_spec rc 0).
Qed.

(** ...for which the window shows no output. *)
Lemma output_block_error stderr :
  output_block (u "Error: " ++ stderr) lines = [u "*No output available*"].
Proof. reflexivity. Qed.

Lemma section_of_failed_text tab win rc stdout stderr :
  _run w self (get_text_args None extent false (Some (w_id win))) = (rc, stdout, stderr) ->
  rc <> 0 ->
  exists pre,
    section (tab, win) = pre ++ [u "*No output available*"; [LF] ++ u "---" ++ [LF]].
Proof.
  intros Hrun Hrc. unfold section_of, window_section. cbn [fst snd].
  rewrite (get_text_failure _ _ _ _ _ _ Hrun Hrc), output_block_error.
  destruct (w_foreground_processes win) as [|p ps]; cbn [fst];
    eexists;
    change ([u "*No output available*"] ++ [[LF] ++ u "---" ++ [LF]])
      with [u "*No output available*"; [LF] ++ u "---" ++ [LF]];
    rewrite !(app_assoc (A := str)); reflexivity.
Qed.

Lemma summary_ls_failure rc stdout stderr :
  _run w self [u "ls"] = (rc, stdout, stderr) ->
  rc <> 0 ->
  report
  = u "Error: " ++ match stderr with [] => u "Failed to list windows" | _ => stderr end.
Proof.
  intros Hrun Hrc. unfold summary, ls. cbn [opt_args nonempty app].
  rewrite Hrun. by destruct (Z.eqb_spec rc 0).
Qed.

(** C1 (as amended).  When the session-listing call fails or times out, the
    report is the single message [Error: ...] and nothing else.  When the
    listing succeeds, the report is never cut short: it is the header, then
    the section of every eligible window in order, then the closing block;
    a window whose text retrieval fails or times out keeps its section,
    which ends with the notice that no output is available. *)
Theorem transport_failure_handling :
  (forall rc stdout stderr,
     _run w self [u "ls"] = (rc, stdout, stderr) ->
     rc <> 0 ->
     report
     = u "Error: "
       ++ match stderr with [] => u "Failed to list windows" | _ => stderr end)
  /\ (forall data,
        ls w self None None = LsData data ->
        report
        = join [LF]
            (summary_header w lines extent
             ++ flat_map section (eligible exclude_self data)
             ++ (if window_count (walk data) =? 0
                 then [no_windows_notice]
                 else summary_block (walk data))))
  /\ (forall tab win rc stdout stderr,
        _run w self (get_text_args None extent false (Some (w_id win)))
        = (rc, stdout, stderr) ->
        rc <> 0 ->
        exists pre,
          section (tab, win)
          = pre ++ [u "*No output available*"; [LF] ++ u "---" ++ [LF]]).
Proof.
  split_and!.
  - exact summary_ls_failure.
  - intros data Hls. unfold summary. rewrite Hls.
    destruct (summary_walk_eligible data) as [Ho _].
    by rewrite Ho, <- app_assoc.
  - exact section_of_failed_text.
Qed.

End Report.

(** The only window of the session is the one that asks. *)
Lemma no_eligible_windows_notice_witness :
  ls (text_timeout_world true) controller None None = LsData (sample_tree true)
  /\ eligible true (sample_tree true) = []
  /\ summary (text_timeout_world true) controller 20 (u "screen") true
     = join [LF]
         [ u "# Kitty Terminal Summary" ++ [LF];
           u "*Generated: 2025-01-01 12:00:00*" ++ [LF];
           u "*Showing last 20 lines from each window (extent: screen)*" ++ [LF];
           u "---" ++ [LF];
           u "*No windows found (or all windows excluded)*" ].
Proof.
  split_and!; [reflexivity..|].
  rewrite (no_eligible_windows_notice (text_timeout_world true) controller 20
             (u "screen") true (sample_tree true) eq_refl eq_refl).
  reflexivity.
Defined.

(** The listing times out; and, in a session whose listing succeeds, the
    text retrieval of window 7 times out. *)
Lemma transport_failure_handling_witness :
  summary ls_timeout_world controller 20 (u "screen") true
  = u "Error: Command timed out"
  /\ exists pre,
       section_of (text_timeout_world false) controller 20 (u "screen")
         (Build_Tab (Int 3) (Some (u "main")) true (Some (u "tall")) [sample_window false],
          sample_window false)
       = pre ++ [u "*No output available*"; [LF] ++ u "---" ++ [LF]].
Proof.
  pose proof (transport_failure_handling ls_timeout_world controller 20 (u "screen") true)
    as (Hls & _ & _).
  pose proof (transport_failure_handling (text_timeout_world false) controller 20
                (u "screen") true) as (_ & _ & Htext).
  split.
  - rewrite (Hls 1 [] (u "Command timed out") eq_refl); [reflexivity|lia].
  - apply (Htext _ (sample_window false) 1 [] (u "Command timed out")); [reflexivity|lia].
Defined.

(** C1 as stated fails for the text retrieval: the call for window 7 times
    out, and the report is not an error message but the whole document,
    with the section of window 7 and the aggregate block. *)
Lemma text_timeout_does_not_abort :
  get_text (text_timeout_world false) controller None (u "screen") false (Some (Int 7))
  = u "Error: Command timed out"
  /\ summary (text_timeout_world false) controller 20 (u "screen") true
     = join [LF]
         [ u "# Kitty Terminal Summary" ++ [LF];
           u "*Generated: 2025-01-01 12:00:00*" ++ [LF];
           u "*Showing last 20 lines from each window (extent: screen)*" ++ [LF];
           u "---" ++ [LF];
           u "## Window 7 | 🟡 ACTIVE | ⏳ BUSY | 🔨 build" ++ [LF];
           u "| Property | Value |";
           u "|----------|-------|";
           u "| **Window ID** | `7` |";
           u "| **Status** | ⏳ BUSY - Running a process |";
           u "| **Process** | 🔨 build |";
           u "| **Tab** | 3 (main) |";
           u "| **Size** | 80x24 |";
           u "| **CWD** | `/srv/app` |";
           u "| **PID** | 4300 |";
           u "| **Command** | `make all` |";
           u "| **Session Age** | unknown |";
           [];
           u "**⚠️ Errors Detected:**";
           u "- Error: `Error: Command timed out`";
           [];
           u "**Quick commands:**";
           u "- Send text: `send-text -w 7 -e " ++ [DQUOTE] ++ u "your command"
             ++ [DQUOTE] ++ u "`";
           u "- Send Ctrl+C: `send-key -w 7 ctrl+c`";
           u "- Get more output: `get-text -w 7 -e all`";
           u "- Focus: `focus -w 7`";
           [];
           u "*No output available*";
           [LF] ++ u "---" ++ [LF];
           [LF] ++ u "## Summary" ++ [LF];
           u "- **Total windows:** 1";
           u "- **Ready for input:** 0 windows: ";
           u "- **⚠️ Windows with errors:** 1 windows: 7" ]
  /\ summary (text_timeout_world false) controller 20 (u "screen") true
     <> u "Error: Command timed out".
Proof.
  split_and!; [vm_compute; reflexivity..|].
  vm_compute. discriminate.
Qed.

(** ** Further properties *)

(** *** Trimming and replacing *)

Lemma lstrip_clean_head s : clean_head (lstrip s).
Proof.
  induction s as [|c s IH]; [by intros ?|].
  cbn [lstrip]. destruct (is_space c) eqn:Hc; [exact IH|].
  intros c' [= <-]. exact Hc.
Qed.

Lemma lstrip_fixed s : clean_head s -> lstrip s = s.
Proof.
  destruct s as [|c s]; [done|]. intros H. cbn [lstrip].
  by rewrite (H c eq_refl).
Qed.

Lemma lstrip_decomp s : exists pre, s = pre ++ lstrip s.
Proof.
  induction s as [|c s [pre IH]]; [by exists []|].
  cbn [lstrip]. destruct (is_space c).
  - exists (c :: pre). cbn. by rewrite <- IH.
  - by exists [].
Qed.

Lemma rstrip_decomp s : exists suf, s = rstrip s ++ suf.
Proof.
  unfold rstrip. destruct (lstrip_decomp (rev s)) as [pre H].
  exists (rev pre). rewrite <- rev_app_distr, <- H. by rewrite rev_involutive.
Qed.

Lemma rstrip_fixed s : clean_head (rev s) -> rstrip s = s.
Proof. intros H. unfold rstrip. by rewrite (lstrip_fixed _ H), rev_involutive. Qed.

Lemma rstrip_clean_last s : clean_head (rev (rstrip s)).
Proof. unfold rstrip. rewrite rev_involutive. apply lstrip_clean_head. Qed.

Lemma rstrip_clean_head s : clean_head s -> clean_head (rstrip s).
Proof.
  intros H c Hc. destruct (rstrip_decomp s) as [suf E].
  destruct (rstrip s) as [|c' r]; [done|]. injection Hc as ->.
  apply H. by rewrite E.
Qed.

Lemma strip_clean s : clean_head (strip s) /\ clean_head (rev (strip s)).
Proof.
  unfold strip. split; [apply rstrip_clean_head, lstrip_clean_head|apply rstrip_clean_last].
Qed.

Lemma strip_fixed s : clean_head s -> clean_head (rev s) -> strip s = s.
Proof.
  intros Hh Hl. unfold strip. rewrite (lstrip_fixed _ Hh). by apply rstrip_fixed.
Qed.

Lemma strip_idem s : strip (strip s) = strip s.
Proof. destruct (strip_clean s). by apply strip_fixed. Qed.

(** Trimming only drops characters at the two ends. *)
Lemma strip_decomp s : exists pre suf, s = pre ++ strip s ++ suf.
Proof.
  destruct (lstrip_decomp s) as [pre Hp].
  destruct (rstrip_decomp (lstrip s)) as [suf Hs].
  exists pre, suf. unfold strip. by rewrite <- Hs.
Qed.

Lemma elem_of_strip c s : c ∈ strip s -> c ∈ s.
Proof.
  intros H. destruct (strip_decomp s) as (pre & suf & E). rewrite E.
  apply elem_of_app. right. apply elem_of_app. by left.
Qed.

Lemma elem_of_replace_char c old new s :
  c ∈ replace_char old new s -> (c ∈ s /\ c <> old) \/ c ∈ new.
Proof.
  unfold replace_char. intros H. apply list_elem_of_In in H.
  apply in_flat_map in H as (x & Hx & Hc). apply list_elem_of_In in Hx.
  destruct (N.eqb_spec x old) as [->|Hne].
  - right. by apply list_elem_of_In.
  - left. destruct Hc as [<-|[]]. done.
Qed.

Lemma replace_char_absent old new s : old ∉ s -> replace_char old new s = s.
Proof.
  unfold replace_char. induction s as [|c s IH]; [done|].
  intros Hn. apply not_elem_of_cons in Hn as [Hc Hs].
  cbn [flat_map]. destruct (N.eqb_spec c old) as [->|_]; [done|].
  cbn. by rewrite IH.
Qed.

Lemma one_line_no_breaks text : (LF ∉ one_line text) /\ (CR ∉ one_line text).
Proof.
  unfold one_line. split; intros H; apply elem_of_strip in H;
    apply elem_of_replace_char in H as [[H ?]|H].
  - apply elem_of_replace_char in H as [[_ ?]|H]; [done|].
    apply list_elem_of_singleton in H. discriminate H.
  - by apply elem_of_nil in H.
  - done.
  - by apply elem_of_nil in H.
Qed.

Lemma one_line_fixed t :
  LF ∉ t -> CR ∉ t -> clean_head t -> clean_head (rev t) -> one_line t = t.
Proof.
  intros Hlf Hcr Hh Hl. unfold one_line.
  rewrite (replace_char_absent LF _ _ Hlf), (replace_char_absent CR _ _ Hcr).
  by apply strip_fixed.
Qed.

(** A text that is already one trimmed line within the bound is left as it
    is. *)
Lemma truncate_fixed t max_len :
  0 <= max_len ->
  LF ∉ t -> CR ∉ t -> clean_head t -> clean_head (rev t) ->
  Z.of_nat (length t) <= max_len ->
  truncate t max_len = t.
Proof.
  intros Hm Hlf Hcr Hh Hl Hlen. rewrite truncate_one_line by done.
  rewrite (one_line_fixed t Hlf Hcr Hh Hl).
  destruct (Z.ltb_spec max_len (Z.of_nat (length t))); [lia|done].
Qed.

(** What [truncate] returns is one trimmed line within the bound. *)
Lemma truncate_shape text max_len :
  3 <= max_len ->
  let r := truncate text max_len in
  (LF ∉ r) /\ (CR ∉ r) /\ clean_head r /\ clean_head (rev r)
  /\ Z.of_nat (length r) <= max_len.
Proof.
  intros Hm r. subst r.
  pose proof (truncate_length text max_len Hm) as Hlen.
  rewrite truncate_one_line in * by lia.
  destruct (one_line_no_breaks text) as [Hlf Hcr].
  assert (Hclean : clean_head (one_line text) /\ clean_head (rev (one_line text)))
    by apply strip_clean.
  destruct Hclean as [Hh Hl].
  destruct (Z.ltb_spec max_len (Z.of_nat (length (one_line text)))) as [Hlong|Hshort];
    [|done].
  unfold slice_to in *. destruct (Z.leb_spec 0 (max_len - 3)); [|lia].
  change (u "...") with [46%N; 46%N; 46%N] in *.
  split_and!.
  - intros Hin. apply elem_of_app in Hin as [Hin|Hin].
    + apply Hlf. rewrite <- (take_drop (Z.to_nat (max_len - 3)) (one_line text)).
      apply elem_of_app. by left.
    + vm_compute in Hin.
      repeat (apply elem_of_cons in Hin as [Hin|Hin]; [discriminate Hin|]).
      by apply elem_of_nil in Hin.
  - intros Hin. apply elem_of_app in Hin as [Hin|Hin].
    + apply Hcr. rewrite <- (take_drop (Z.to_nat (max_len - 3)) (one_line text)).
      apply elem_of_app. by left.
    + vm_compute in Hin.
      repeat (apply elem_of_cons in Hin as [Hin|Hin]; [discriminate Hin|]).
      by apply elem_of_nil in Hin.
  - intros c Hc. destruct (one_line text) as [|c0 t] eqn:E; [cbn in Hlong; lia|].
    destruct (Z.to_nat (max_len - 3)) as [|k].
    + cbn in Hc. by injection Hc as <-.
    + cbn in Hc. injection Hc as <-. by apply Hh.
  - rewrite rev_app_distr. cbn. by intros c [= <-].
  - exact Hlen.
Qed.

(** X1.  For a bound of at least 3, what [truncate] returns is a single
    line (no line feed, no carriage return), without white space at either
    end, of at most [max_len] characters. *)
Theorem truncate_single_line text max_len :
  3 <= max_len ->
  (LF ∉ truncate text max_len)
  /\ (CR ∉ truncate text max_len)
  /\ strip (truncate text max_len) = truncate text max_len
  /\ Z.of_nat (length (truncate text max_len)) <= max_len.
Proof.
  intros Hm. destruct (truncate_shape text max_len Hm) as (? & ? & ? & ? & ?).
  split_and!; [done|done|by apply strip_fixed|done].
Qed.

Lemma truncate_single_line_witness :
  truncate (u "  ls -la" ++ [LF] ++ u "total 0" ++ [CR; LF]) 10 = u "ls -la ..."
  /\ (LF ∉ truncate (u "  ls -la" ++ [LF] ++ u "total 0" ++ [CR; LF]) 10)
  /\ (CR ∉ truncate (u "  ls -la" ++ [LF] ++ u "total 0" ++ [CR; LF]) 10)
  /\ strip (truncate (u "  ls -la" ++ [LF] ++ u "total 0" ++ [CR; LF]) 10)
     = truncate (u "  ls -la" ++ [LF] ++ u "total 0" ++ [CR; LF]) 10
  /\ Z.of_nat (length (truncate (u "  ls -la" ++ [LF] ++ u "total 0" ++ [CR; LF]) 10))
     <= 10.
Proof.
  split; [reflexivity|].
  apply (truncate_single_line (u "  ls -la" ++ [LF] ++ u "total 0" ++ [CR; LF]) 10).
  lia.
Defined.

(** X2.  For a bound of at least 3, truncating twice is truncating once. *)
Theorem truncate_idempotent text max_len :
  3 <= max_len ->
  truncate (truncate text max_len) max_len = truncate text max_len.
Proof.
  intros Hm. destruct (truncate_shape text max_len Hm) as (? & ? & ? & ? & ?).
  apply truncate_fixed; [lia|done..].
Qed.

Lemma truncate_idempotent_witness :
  truncate (truncate (u "  ls -la" ++ [LF] ++ u "total 0" ++ [CR; LF]) 10) 10
  = truncate (u "  ls -la" ++ [LF] ++ u "total 0" ++ [CR; LF]) 10.
Proof.
  apply (truncate_idempotent (u "  ls -la" ++ [LF] ++ u "total 0" ++ [CR; LF]) 10).
  lia.
Defined.

(** *** Lines *)

Lemma split_nonempty sep s : split sep s <> [].
Proof.
  destruct s as [|c s]; [done|]. cbn [split].
  destruct (c =? sep)%N; [done|]. by destruct (split sep s).
Qed.

Lemma split_sep_free sep s : Forall (fun l => sep ∉ l) (split sep s).
Proof.
  induction s as [|c s IH]; cbn [split].
  { constructor; [apply not_elem_of_nil|constructor]. }
  destruct (N.eqb_spec c sep) as [->|Hne].
  - constructor; [apply not_elem_of_nil|exact IH].
  - destruct (split sep s) as [|h t].
    + constructor; [|constructor].
      apply not_elem_of_cons. split; [congruence|apply not_elem_of_nil].
    + inversion IH; subst. constructor; [|done].
      apply not_elem_of_cons. split; [congruence|done].
Qed.

Lemma join_cons2 (sep p q : str) rest :
  join sep (p :: q :: rest) = p ++ sep ++ join sep (q :: rest).
Proof. reflexivity. Qed.

(** Joining lines and splitting again gives the lines back... *)
Lemma split_join sep ls :
  ls <> [] -> Forall (fun l => sep ∉ l) ls -> split sep (join [sep] ls) = ls.
Proof.
  intros Hne Hall. induction Hall as [|p ls Hp Hall IH]; [done|].
  destruct ls as [|q rest]; [by apply split_no_sep|].
  rewrite join_cons2. cbn [app].
  rewrite (split_app_sep sep p _ Hp). f_equal. by apply IH.
Qed.

(** ...and splitting a text and joining the pieces gives the text back. *)
Lemma join_split sep s : join [sep] (split sep s) = s.
Proof.
  induction s as [|c s IH]; [reflexivity|]. cbn [split].
  pose proof (split_nonempty sep s) as Hne.
  destruct (N.eqb_spec c sep) as [->|_].
  - destruct (split sep s) as [|h t]; [done|].
    rewrite join_cons2. cbn [app]. by rewrite IH.
  - destruct (split sep s) as [|h t]; [done|].
    destruct t as [|h' t']; cbn [join] in *; by rewrite <- IH.
Qed.

Lemma join_two_nonempty (sep : char) ls :
  (2 <= length ls)%nat -> join [sep] ls <> [].
Proof.
  destruct ls as [|p [|q rest]]; cbn [length]; [lia..|].
  intros _. rewrite join_cons2. by destruct p.
Qed.

(** *** Error scanner, continued *)

Lemma scan_lines_length lines errors seen :
  (length errors < 3)%nat -> (length (scan_lines lines errors seen) <= 3)%nat.
Proof.
  revert errors seen. induction lines as [|line rest IH]; intros errors seen Hlt;
    [cbn; lia|].
  cbn [scan_lines].
  destruct (skipped_line (strip (lower line))); [by apply IH|].
  destruct (first_fire seen (strip (lower line)) error_patterns) as [[p d]|].
  - destruct (Nat.leb_spec 3 (length (errors ++ [error_entry d line]))) as [H|H].
    + rewrite length_app in *. cbn [length] in *. lia.
    + by apply IH.
  - destruct (Nat.leb_spec 3 (length errors)); [lia|by apply IH].
Qed.

(** X3.  Whatever the text, the scanner returns at most 3 entries. *)
Theorem detect_errors_at_most_three text : (length (_detect_errors text) <= 3)%nat.
Proof.
  unfold _detect_errors. destruct text; [cbn; lia|].
  apply scan_lines_length. cbn. lia.
Qed.

(** X4.  Only the last 30 lines of a text are scanned: lines before them
    do not change the result. *)
Theorem detect_errors_recent_only pre recent :
  length recent = 30%nat ->
  Forall (fun l => LF ∉ l) (pre ++ recent) ->
  _detect_errors (join [LF] (pre ++ recent)) = _detect_errors (join [LF] recent).
Proof.
  intros Hlen Hall.
  assert (Hall' : Forall (fun l => LF ∉ l) recent) by (by apply Forall_app in Hall as [_ ?]).
  assert (Hne : join [LF] (pre ++ recent) <> []).
  { apply join_two_nonempty. rewrite length_app. lia. }
  assert (Hne' : join [LF] recent <> []) by (apply join_two_nonempty; lia).
  unfold _detect_errors.
  destruct (join [LF] (pre ++ recent)) as [|c t] eqn:E; [done|]. rewrite <- E.
  destruct (join [LF] recent) as [|c' t'] eqn:E'; [done|]. rewrite <- E'.
  rewrite !split_join; [|by destruct recent|done|by destruct pre, recent|done].
  f_equal. unfold slice_from. cbn [Z.ltb Z.compare].
  rewrite length_app, Hlen.
  replace (Z.to_nat (Z.of_nat (length pre + 30) + -30)) with (length pre) by lia.
  by rewrite drop_app_length.
Qed.

(** An old error followed by 30 quiet lines is not reported. *)
Lemma detect_errors_recent_only_witness :
  _detect_errors (join [LF] ([u "fatal: disk full"] ++ replicate 30 (u "ok"))) = []
  /\ _detect_errors (u "fatal: disk full") = [u "Fatal error: `fatal: disk full`"].
Proof.
  split; [|reflexivity].
  rewrite (detect_errors_recent_only [u "fatal: disk full"] (replicate 30 (u "ok"))).
  - reflexivity.
  - reflexivity.
  - repeat constructor; intros H; vm_compute in H;
      repeat (apply elem_of_cons in H as [H|H]; [discriminate H|]);
      by apply elem_of_nil in H.
Defined.

Lemma scan_lines_matched lines errors seen e :
  e ∈ scan_lines lines errors seen ->
  e ∈ errors
  \/ exists pattern description line,
       (pattern, description) ∈ error_patterns /\ line ∈ lines
       /\ e = error_entry description line
       /\ skipped_line (strip (lower line)) = false
       /\ Re.search pattern (strip (lower line)) = true.
Proof.
  revert errors seen. induction lines as [|line rest IH]; intros errors seen He;
    [by left|].
  cbn [scan_lines] in He.
  assert (Hrest : forall errors' seen',
             e ∈ scan_lines rest errors' seen' ->
             e ∈ errors'
             \/ exists pattern description line0,
                  (pattern, description) ∈ error_patterns /\ line0 ∈ line :: rest
                  /\ e = error_entry description line0
                  /\ skipped_line (strip (lower line0)) = false
                  /\ Re.search pattern (strip (lower line0)) = true).
  { intros errors' seen' H.
    destruct (IH _ _ H) as [|(p & d & l & ? & ? & ? & ? & ?)]; [by left|].
    right. exists p, d, l. split_and!; [done|by right|done..]. }
  destruct (skipped_line (strip (lower line))) eqn:Hskip; [by apply Hrest in He|].
  destruct (first_fire seen (strip (lower line)) error_patterns) as [[p d]|] eqn:Hf.
  - apply first_fire_spec in Hf as (_ & Hin & Hmatch).
    assert (Hnew : e ∈ errors ++ [error_entry d line] ->
                   e ∈ errors
                   \/ exists pattern description line0,
                        (pattern, description) ∈ error_patterns /\ line0 ∈ line :: rest
                        /\ e = error_entry description line0
                        /\ skipped_line (strip (lower line0)) = false
                        /\ Re.search pattern (strip (lower line0)) = true).
    { rewrite elem_of_app. intros [|H]; [by left|].
      apply list_elem_of_singleton in H. right. exists p, d, line.
      split_and!; [done|by left|done..]. }
    destruct (3 <=? length (errors ++ [error_entry d line]))%nat; [by apply Hnew|].
    apply Hrest in He as [He|He]; [by apply Hnew|by right].
  - destruct (3 <=? length errors)%nat; [by left|by apply Hrest in He].
Qed.

(** X5.  Every entry comes from a line that one of the patterns matches
    and that is none of the lines the scanner passes over: an empty line, a
    line that starts with a prompt glyph, or one that starts with [info],
    [warn], [debug] or [notice]. *)
Theorem detect_errors_from_matched_lines text e :
  e ∈ _detect_errors text ->
  exists pattern description line,
    (pattern, description) ∈ error_patterns
    /\ line ∈ split LF text
    /\ e = error_entry description line
    /\ Re.search pattern (strip (lower line)) = true
    /\ strip (lower line) <> []
    /\ startswith_any prompt_glyphs (strip (lower line)) = false
    /\ startswith_any status_words (strip (lower line)) = false.
Proof.
  intros He. unfold _detect_errors in He.
  destruct text as [|c t]; [by apply elem_of_nil in He|].
  apply scan_lines_matched in He as [He|(p & d & line & Hp & Hline & -> & Hskip & Hm)];
    [by apply elem_of_nil in He|].
  exists p, d, line. unfold skipped_line in Hskip.
  apply orb_false_iff in Hskip as [Hskip Hstatus].
  apply orb_false_iff in Hskip as [Hempty Hprompt].
  apply bool_decide_eq_false in Hempty.
  split_and!; [done|exact (elem_of_slice_from _ _ _ Hline)|done..].
Qed.

(** A warning line that mentions an error is passed over; the line after
    it is reported. *)
Lemma detect_errors_from_matched_lines_witness :
  _detect_errors (u "warning: error: deprecated" ++ [LF] ++ u "panic: oops")
  = [u "Panic/crash: `panic: oops`"]
  /\ exists pattern description line,
       (pattern, description) ∈ error_patterns
       /\ line ∈ split LF (u "warning: error: deprecated" ++ [LF] ++ u "panic: oops")
       /\ u "Panic/crash: `panic: oops`" = error_entry description line
       /\ Re.search pattern (strip (lower line)) = true
       /\ strip (lower line) <> []
       /\ startswith_any prompt_glyphs (strip (lower line)) = false
       /\ startswith_any status_words (strip (lower line)) = false.
Proof.
  assert (E : _detect_errors (u "warning: error: deprecated" ++ [LF] ++ u "panic: oops")
              = [u "Panic/crash: `panic: oops`"]) by (vm_compute; reflexivity).
  split; [exact E|].
  apply (detect_errors_from_matched_lines
           (u "warning: error: deprecated" ++ [LF] ++ u "panic: oops")).
  rewrite E. by left.
Defined.

(** *** Context extractors *)

Lemma last_in {A} (l : list A) d : l <> [] -> List.last l d ∈ l.
Proof.
  induction l as [|x l IH]; [done|]. intros _.
  destruct l as [|y l]; [by left|].
  right. change (List.last (x :: y :: l) d) with (List.last (y :: l) d).
  by apply IH.
Qed.

(** A base name contains no slash. *)
Lemma basename_no_slash s : 47%N ∉ basename s.
Proof.
  unfold basename.
  pose proof (last_in (split 47%N s) [] (split_nonempty 47%N s)) as Hin.
  pose proof (split_sep_free 47%N s) as Hall.
  rewrite Forall_forall in Hall. by apply Hall.
Qed.

(** X6.  When [VIRTUAL_ENV] is set and not empty, the environment reported
    is its last path segment, whatever [CONDA_DEFAULT_ENV] says; it contains
    no slash. *)
Theorem virtualenv_preferred (env : gmap str str) venv :
  env !! u "VIRTUAL_ENV" = Some venv ->
  venv <> [] ->
  _get_virtualenv env = Some (basename venv) /\ (47%N ∉ basename venv).
Proof.
  intros Hv Hne. split; [|apply basename_no_slash].
  unfold _get_virtualenv. rewrite Hv. cbn [default]. by destruct venv.
Qed.

Lemma virtualenv_preferred_witness :
  _get_virtualenv
    (<[u "VIRTUAL_ENV" := u "/home/dev/.venvs/api"]>
       (<[u "CONDA_DEFAULT_ENV" := u "ml"]> ∅))
  = Some (u "api")
  /\ (47%N ∉ basename (u "/home/dev/.venvs/api")).
Proof.
  pose proof (virtualenv_preferred
                (<[u "VIRTUAL_ENV" := u "/home/dev/.venvs/api"]>
                   (<[u "CONDA_DEFAULT_ENV" := u "ml"]> ∅))
                (u "/home/dev/.venvs/api")) as H.
  destruct H as [H1 H2]; [by rewrite lookup_insert_eq|discriminate|].
  split; [|exact H2]. rewrite H1. reflexivity.
Defined.

(** X7.  No environment is reported exactly when [VIRTUAL_ENV] is unset or
    empty and [CONDA_DEFAULT_ENV] is unset, empty or ["base"]. *)
Theorem virtualenv_none (env : gmap str str) :
  _get_virtualenv env = None
  <-> default [] (env !! u "VIRTUAL_ENV") = []
      /\ (default [] (env !! u "CONDA_DEFAULT_ENV") = []
          \/ default [] (env !! u "CONDA_DEFAULT_ENV") = u "base").
Proof.
  unfold _get_virtualenv.
  destruct (default [] (env !! u "VIRTUAL_ENV")) as [|c v].
  - destruct (default [] (env !! u "CONDA_DEFAULT_ENV")) as [|c' v'].
    + split; [intros _; split; [done|by left]|done].
    + case_bool_decide as Hb.
      * split; [intros _; split; [done|by right]|done].
      * split; [done|]. intros [_ [?|?]]; done.
  - split; [done|]. by intros [? _].
Qed.

(** X8.  A branch that is reported is never empty, has no white space at
    either end, and is the trimmed output of a query that returned 0. *)
Theorem git_branch_trimmed w cwd branch :
  _get_git_branch w cwd = Some branch ->
  branch <> []
  /\ strip branch = branch
  /\ exists stdout,
       git_show_current w cwd = Some (0, stdout) /\ branch = strip stdout.
Proof.
  unfold _get_git_branch.
  destruct (git_show_current w cwd) as [[rc stdout]|]; [|done].
  destruct (Z.eqb_spec rc 0) as [->|]; [|done].
  destruct (strip stdout) as [|c b] eqn:E; [done|].
  intros [= <-]. split_and!; [done| |by exists stdout].
  rewrite <- E. apply strip_idem.
Qed.

Lemma git_branch_trimmed_witness :
  _get_git_branch (git_world 0 (u "  feature/login" ++ [LF])) (u "/srv/app")
  = Some (u "feature/login")
  /\ _get_git_branch (git_world 128 (u "fatal: not a git repository")) (u "/srv/app")
     = None
  /\ u "feature/login" <> []
  /\ strip (u "feature/login") = u "feature/login".
Proof.
  split_and!; [reflexivity..| |].
  - by apply (git_branch_trimmed (git_world 0 (u "  feature/login" ++ [LF]))
                (u "/srv/app") (u "feature/login") eq_refl).
  - by apply (git_branch_trimmed (git_world 0 (u "  feature/login" ++ [LF]))
                (u "/srv/app") (u "feature/login") eq_refl).
Defined.

(** *** Age formatter, continued *)

Lemma interval_of_delta_bounds delta :
  0 <= delta ->
  let i := interval_of_delta delta in
  let e := elapsed_seconds delta in
  0 <= i <= e
  /\ (e < 60 -> i = e)
  /\ (e < 3600 -> e < i + 60)
  /\ (e < 86400 -> e < i + 3600)
  /\ e < i + 86400.
Proof.
  intros H0. cbn zeta.
  unfold interval_of_delta, elapsed_seconds, delta_days, delta_seconds, US_PER_DAY.
  repeat match goal with
         | |- context [?a >? ?b] =>
             let E := fresh "E" in
             destruct (a >? b) eqn:E;
             [apply Z.gtb_lt in E|rewrite Z.gtb_ltb in E; apply Z.ltb_ge in E]
         | |- context [?a >=? ?b] =>
             let E := fresh "E" in
             destruct (a >=? b) eqn:E;
             [apply Z.geb_le in E|rewrite Z.geb_leb in E; apply Z.leb_gt in E]
         end;
    Z.div_mod_to_equations; lia.
Qed.

(** X9.  For a creation time in the past, the age shown never exceeds the
    time elapsed and falls short of it by less than one unit: it is exact
    below a minute, within a minute below an hour, within an hour below a
    day, and within a day beyond. *)
Theorem format_age_within_elapsed w t created :
  t <> 0 ->
  fromtimestamp_us w t = Some created ->
  created <= now_us w ->
  exists i,
    age_interval (_format_age w t) = Some i
    /\ 0 <= i <= elapsed_seconds (now_us w - created)
    /\ (elapsed_seconds (now_us w - created) < 60 ->
        i = elapsed_seconds (now_us w - created))
    /\ (elapsed_seconds (now_us w - created) < 3600 ->
        elapsed_seconds (now_us w - created) < i + 60)
    /\ (elapsed_seconds (now_us w - created) < 86400 ->
        elapsed_seconds (now_us w - created) < i + 3600)
    /\ elapsed_seconds (now_us w - created) < i + 86400.
Proof.
  intros Ht Hc Hpast. exists (interval_of_delta (now_us w - created)).
  split; [by apply format_age_interval|].
  apply (interval_of_delta_bounds (now_us w - created)). lia.
Qed.

(** 32800 seconds before the current time: 9 hours. *)
Lemma format_age_within_elapsed_witness :
  _format_age ls_timeout_world 1735700000000000000 = u "9h ago"
  /\ elapsed_seconds (now_us ls_timeout_world - 1735700000000000) = 32800
  /\ exists i,
       age_interval (_format_age ls_timeout_world 1735700000000000000) = Some i
       /\ 0 <= i <= 32800.
Proof.
  split_and!; [reflexivity..|].
  destruct (format_age_within_elapsed ls_timeout_world 1735700000000000000
              1735700000000000) as (i & Hi & Hb & _);
    [lia|reflexivity|vm_compute; discriminate|].
  exists i. split; [exact Hi|exact Hb].
Defined.

(** X10.  A creation time in the future is shown neither as unknown nor as
    a negative age: the day count of the difference is negative, so the age
    is read off its seconds part and is below one day. *)
Theorem format_age_future w t created :
  t <> 0 ->
  fromtimestamp_us w t = Some created ->
  now_us w < created ->
  exists i, age_interval (_format_age w t) = Some i /\ 0 <= i < 86400.
Proof.
  intros Ht Hc Hfut. exists (interval_of_delta (now_us w - created)).
  split; [by apply format_age_interval|].
  unfold interval_of_delta, delta_days, delta_seconds, US_PER_DAY.
  repeat match goal with
         | |- context [?a >? ?b] =>
             let E := fresh "E" in
             destruct (a >? b) eqn:E;
             [apply Z.gtb_lt in E|rewrite Z.gtb_ltb in E; apply Z.ltb_ge in E]
         | |- context [?a >=? ?b] =>
             let E := fresh "E" in
             destruct (a >=? b) eqn:E;
             [apply Z.geb_le in E|rewrite Z.geb_leb in E; apply Z.leb_gt in E]
         end;
    Z.div_mod_to_equations; lia.
Qed.

(** Created one second after the current time: shown as 23 hours ago. *)
Lemma format_age_future_witness :
  _format_age ls_timeout_world 1735732801000000000 = u "23h ago"
  /\ exists i,
       age_interval (_format_age ls_timeout_world 1735732801000000000) = Some i
       /\ 0 <= i < 86400.
Proof.
  split; [reflexivity|].
  apply (format_age_future ls_timeout_world 1735732801000000000 1735732801000000);
    [lia|reflexivity|reflexivity].
Defined.

(** *** Process classifier, continued *)

Ltac case_bounds :=
  repeat (match goal with
          | |- context [(?a <=? ?b)%N] => destruct (N.leb_spec a b)
          | |- context [(?a =? ?b)%N] => destruct (N.eqb_spec a b)
          end; cbn [andb negb orb]);
  try reflexivity; try lia.

(** The characters [lower_char] leaves alone, which are those it returns. *)
Lemma lower_char_fixed d :
  (d < 65 \/ 90 < d < 192 \/ 222 < d \/ d = 215)%N -> lower_char d = d.
Proof. intros Hd. unfold lower_char. case_bounds. Qed.

Lemma lower_char_range c :
  (lower_char c < 65 \/ 90 < lower_char c < 192 \/ 222 < lower_char c
   \/ lower_char c = 215)%N.
Proof. unfold lower_char. case_bounds. Qed.

Lemma lower_char_idem c : lower_char (lower_char c) = lower_char c.
Proof. apply lower_char_fixed, lower_char_range. Qed.

Lemma lower_idem s : lower (lower s) = lower s.
Proof.
  unfold lower. rewrite map_map. apply map_ext. intros c. apply lower_char_idem.
Qed.

Lemma lower_join sep parts :
  lower (join sep parts) = join (lower sep) (map lower parts).
Proof.
  induction parts as [|p parts IH]; [reflexivity|].
  destruct parts as [|q rest]; [reflexivity|].
  rewrite join_cons2. cbn [map] in *. rewrite join_cons2, <- IH.
  unfold lower. by rewrite !map_app.
Qed.

Lemma full_cmd_of_lower cmdline : full_cmd_of (map lower cmdline) = full_cmd_of cmdline.
Proof.
  unfold full_cmd_of. rewrite !lower_join, map_map.
  f_equal. apply map_ext. intros s. apply lower_idem.
Qed.

(** X11.  For a command line of characters up to U+00FF, the
    classification does not depend on the case: lowercasing every token
    leaves it as it is. *)
Theorem categorize_case_insensitive cmdline :
  Forall latin1 cmdline ->
  _categorize_process (map lower cmdline) = _categorize_process cmdline.
Proof.
  intros _. destruct cmdline as [|c0 rest]; [reflexivity|].
  pose proof (full_cmd_of_lower (c0 :: rest)) as Hfull.
  assert (Hbase : base_of (map lower (c0 :: rest)) = base_of (c0 :: rest)).
  { cbn [map base_of]. by rewrite lower_idem. }
  cbn [map] in Hfull, Hbase |- *. unfold _categorize_process.
  by rewrite Hfull, Hbase.
Qed.

Lemma categorize_case_insensitive_witness :
  Forall latin1 [u "/usr/bin/GIT"; u "Commit"]
  /\ map lower [u "/usr/bin/GIT"; u "Commit"] = [u "/usr/bin/git"; u "commit"]
  /\ _categorize_process [u "/usr/bin/git"; u "commit"]
     = _categorize_process [u "/usr/bin/GIT"; u "Commit"].
Proof.
  assert (H : Forall latin1 [u "/usr/bin/GIT"; u "Commit"]).
  { repeat constructor. }
  split_and!; [exact H|reflexivity|].
  exact (categorize_case_insensitive [u "/usr/bin/GIT"; u "Commit"] H).
Defined.

(** X12.  When the base name of the command is a shell, an editor or a
    build tool, the arguments play no part in the classification. *)
Theorem categorize_by_name_alone c0 args args' :
  in_tuple (basename (lower c0)) (shells ++ editors ++ build_tools) = true ->
  _categorize_process (c0 :: args) = _categorize_process (c0 :: args').
Proof.
  intros Hin. apply in_tuple_true in Hin.
  unfold _categorize_process. cbn [base_of].
  destruct (in_tuple (basename (lower c0)) shells) eqn:Hs; [reflexivity|].
  destruct (in_tuple (basename (lower c0)) editors) eqn:He; [reflexivity|].
  destruct (in_tuple (basename (lower c0)) build_tools) eqn:Hb; [reflexivity|].
  apply elem_of_app in Hin as [Hin|Hin].
  { apply in_tuple_true in Hin. congruence. }
  apply elem_of_app in Hin as [Hin|Hin]; apply in_tuple_true in Hin; congruence.
Qed.

(** [go test] is a build like [go build]: the build set comes first. *)
Lemma categorize_by_name_alone_witness :
  _categorize_process [u "/usr/local/bin/Go"; u "test"; u "./..."] = L_build
  /\ _categorize_process [u "/usr/local/bin/Go"; u "test"; u "./..."]
     = _categorize_process [u "/usr/local/bin/Go"; u "build"].
Proof.
  split; [reflexivity|].
  by apply (categorize_by_name_alone (u "/usr/local/bin/Go")).
Defined.

(** *** The transport calls, continued *)

(** X13.  The message of a failed listing is never empty, and the raw
    document comes with it exactly when the call succeeded and its output
    did not decode. *)
Theorem ls_error_cases w self match_ match_tab error raw :
  ls w self match_ match_tab = LsError error raw ->
  error <> []
  /\ exists rc stdout stderr,
       _run w self ([u "ls"] ++ opt_args (u "--match") match_
                    ++ opt_args (u "--match-tab") match_tab)
       = (rc, stdout, stderr)
       /\ ((rc <> 0 /\ raw = None
            /\ error = match stderr with
                       | [] => u "Failed to list windows"
                       | _ => stderr
                       end)
           \/ (rc = 0 /\ raw = Some stdout /\ json_loads w stdout = None
               /\ error = u "Invalid JSON response")).
Proof.
  unfold ls.
  destruct (_run w self _) as [[rc stdout] stderr].
  destruct (Z.eqb_spec rc 0) as [->|Hrc]; cbn [negb].
  - destruct (json_loads w stdout) eqn:Hj; [done|].
    intros [= <- <-]. split; [done|]. exists 0, stdout, stderr.
    split; [done|]. right. done.
  - intros [= <- <-]. split; [by destruct stderr|].
    exists rc, stdout, stderr. split; [done|]. left. done.
Qed.

Lemma ls_error_cases_witness :
  ls ls_timeout_world controller None None = LsError (u "Command timed out") None
  /\ u "Command timed out" <> [].
Proof.
  split; [reflexivity|].
  by apply (ls_error_cases ls_timeout_world controller None None
              (u "Command timed out") None eq_refl).
Defined.

(** *** The text block of a window *)

(** X14.  The text of a window is replaced by the notice that no output is
    available exactly when it is empty or starts with ["Error:"], whether
    or not the retrieval failed. *)
Theorem output_block_unavailable text lines :
  output_block text lines = [u "*No output available*"]
  <-> text = [] \/ startswith (u "Error:") text = true.
Proof.
  unfold output_block. destruct text as [|c t]; [split; [by left|done]|].
  destruct (startswith (u "Error:") (c :: t)); cbn [negb].
  - split; [by right|done].
  - split; [|by intros [?|?]].
    destruct (lines <? _); cbn [app]; discriminate.
Qed.

Lemma join_app sep (l1 l2 : list str) :
  l1 <> [] -> l2 <> [] -> join sep (l1 ++ l2) = join sep l1 ++ sep ++ join sep l2.
Proof.
  intros H1 H2. induction l1 as [|p l1 IH]; [done|].
  destruct l1 as [|q l1].
  - destruct l2 as [|r l2]; [done|]. reflexivity.
  - cbn [app] in *. rewrite !join_cons2, IH by done. by rewrite <- !app_assoc.
Qed.

(** X15.  A text with no more lines than asked for is shown as it is,
    without its trailing line feeds. *)
Theorem output_block_verbatim text lines :
  text <> [] ->
  startswith (u "Error:") text = false ->
  Z.of_nat (length (split LF (rstrip_char LF text))) <= lines ->
  output_block text lines = [u "```"; rstrip_char LF text; u "```"].
Proof.
  intros Hne Herr Hfew. unfold output_block. destruct text as [|c t]; [done|].
  rewrite Herr. cbn [negb].
  destruct (Z.ltb_spec lines (Z.of_nat (length (split LF (rstrip_char LF (c :: t))))));
    [lia|].
  cbn [app]. by rewrite join_split.
Qed.

Lemma output_block_verbatim_witness :
  output_block (u "$ make" ++ [LF] ++ u "done" ++ [LF; LF]) 20
  = [u "```"; u "$ make" ++ [LF] ++ u "done"; u "```"].
Proof.
  rewrite (output_block_verbatim (u "$ make" ++ [LF] ++ u "done" ++ [LF; LF]) 20);
    [reflexivity|discriminate|reflexivity|vm_compute; discriminate].
Defined.

(** X16.  A text with more lines than asked for (a positive number) is cut
    to that many lines, the last ones: the block says so, and what it shows
    is the end of the text. *)
Theorem output_block_clipped text lines :
  text <> [] ->
  startswith (u "Error:") text = false ->
  0 < lines < Z.of_nat (length (split LF (rstrip_char LF text))) ->
  exists body pre,
    output_block text lines
    = [ u "*(...truncated, showing last " ++ str_of_Z lines ++ u " lines)*" ++ [LF];
        u "```"; body; u "```" ]
    /\ Z.of_nat (length (split LF body)) = lines
    /\ rstrip_char LF text = pre ++ [LF] ++ body.
Proof.
  intros Hne Herr Hmany. unfold output_block. destruct text as [|c t]; [done|].
  rewrite Herr. cbn [negb].
  set (all := split LF (rstrip_char LF (c :: t))) in *.
  destruct (Z.ltb_spec lines (Z.of_nat (length all))); [|lia].
  assert (Hfree : Forall (fun l => LF ∉ l) all) by apply split_sep_free.
  set (k := Z.to_nat (Z.of_nat (length all) + - lines)).
  assert (Hslice : slice_from all (- lines) = drop k all).
  { unfold slice_from. destruct (Z.ltb_spec (- lines) 0); [done|lia]. }
  rewrite Hslice.
  assert (Hk : (0 < k < length all)%nat) by lia.
  assert (Hdrop : drop k all <> []).
  { intros E. apply (f_equal length) in E. rewrite length_drop in E.
    cbn [length] in E. lia. }
  assert (Htake : take k all <> []).
  { intros E. apply (f_equal length) in E. rewrite length_take in E.
    cbn [length] in E. lia. }
  exists (join [LF] (drop k all)), (join [LF] (take k all)).
  split_and!.
  - reflexivity.
  - rewrite split_join; [|done|].
    + rewrite length_drop. lia.
    + rewrite <- (take_drop k all) in Hfree. by apply Forall_app in Hfree as [_ ?].
  - rewrite <- join_app by done. rewrite take_drop. subst all.
    by rewrite join_split.
Qed.

Lemma output_block_clipped_witness :
  output_block (u "one" ++ [LF] ++ u "two" ++ [LF] ++ u "three" ++ [LF]) 2
  = [ u "*(...truncated, showing last 2 lines)*" ++ [LF];
      u "```"; u "two" ++ [LF] ++ u "three"; u "```" ]
  /\ exists body pre,
       output_block (u "one" ++ [LF] ++ u "two" ++ [LF] ++ u "three" ++ [LF]) 2
       = [ u "*(...truncated, showing last " ++ str_of_Z 2 ++ u " lines)*" ++ [LF];
           u "```"; body; u "```" ]
       /\ Z.of_nat (length (split LF body)) = 2
       /\ rstrip_char LF (u "one" ++ [LF] ++ u "two" ++ [LF] ++ u "three" ++ [LF])
          = pre ++ [LF] ++ body.
Proof.
  split; [reflexivity|].
  apply (output_block_clipped (u "one" ++ [LF] ++ u "two" ++ [LF] ++ u "three" ++ [LF]) 2);
    [discriminate|reflexivity|vm_compute; split; reflexivity].
Defined.

(** X17.  Asked for 0 lines, the block announces a cut to the last 0
    lines and then shows the whole text: [text_lines[-0:]] is the whole
    list. *)
Theorem output_block_zero_lines text :
  text <> [] ->
  startswith (u "Error:") text = false ->
  output_block text 0
  = [ u "*(...truncated, showing last 0 lines)*" ++ [LF];
      u "```"; rstrip_char LF text; u "```" ].
Proof.
  intros Hne Herr. unfold output_block. destruct text as [|c t]; [done|].
  rewrite Herr. cbn [negb].
  pose proof (split_nonempty LF (rstrip_char LF (c :: t))) as Hsplit.
  destruct (Z.ltb_spec 0 (Z.of_nat (length (split LF (rstrip_char LF (c :: t))))))
    as [_|Hlen].
  - cbn [app]. unfold slice_from.
    change (- 0 <? 0) with false. change (Z.to_nat (- 0)) with 0%nat.
    by rewrite drop_0, join_split.
  - destruct (split LF (rstrip_char LF (c :: t))); [done|cbn in Hlen; lia].
Qed.

Lemma output_block_zero_lines_witness :
  output_block (u "one" ++ [LF] ++ u "two" ++ [LF]) 0
  = [ u "*(...truncated, showing last 0 lines)*" ++ [LF];
      u "```"; u "one" ++ [LF] ++ u "two"; u "```" ].
Proof.
  rewrite (output_block_zero_lines (u "one" ++ [LF] ++ u "two" ++ [LF]));
    [reflexivity|discriminate|reflexivity].
Defined.

(** *** Report synthesizer, continued *)

Section Bookkeeping.

Context (w : World) (self : KittenController).
Context (lines : Z) (extent : str) (exclude_self : bool).

Local Abbreviation records := (records_windows w self lines extent).

Lemma records_nil st : records st st [].
Proof. split; cbn; by rewrite app_nil_r. Qed.

Lemma records_trans st1 st2 st3 keep1 keep2 :
  records st1 st2 keep1 -> records st2 st3 keep2 -> records st1 st3 (keep1 ++ keep2).
Proof.
  intros [Hr1 He1] [Hr2 He2]. split.
  - by rewrite Hr2, Hr1, List.filter_app, map_app, <- app_assoc.
  - by rewrite He2, He1, List.filter_app, map_app, <- app_assoc.
Qed.

Lemma summary_window_records tab st win :
  records st (summary_window w self lines extent exclude_self tab st win)
    (map (pair tab)
       (List.filter (fun win => negb (exclude_self && w_is_self win)) [win])).
Proof.
  unfold summary_window. cbn [List.filter].
  destruct (exclude_self && w_is_self win); cbn [negb map]; [apply records_nil|].
  unfold records_windows, has_errors_of. cbn [List.filter fst snd].
  destruct (window_section w self lines extent tab win) as [sec has_errors].
  cbn [ready_windows error_windows snd].
  split.
  - destruct (w_at_prompt win); cbn [map]; [done|by rewrite app_nil_r].
  - destruct has_errors; cbn [map]; [done|by rewrite app_nil_r].
Qed.

Lemma summary_tab_records tab wins st :
  records st
    (fold_left (summary_window w self lines extent exclude_self tab) wins st)
    (map (pair tab)
       (List.filter (fun win => negb (exclude_self && w_is_self win)) wins)).
Proof.
  revert st. induction wins as [|win wins IH]; intros st; [apply records_nil|].
  cbn [fold_left].
  change (win :: wins) with ([win] ++ wins).
  rewrite List.filter_app, map_app.
  eapply records_trans; [apply summary_window_records|apply IH].
Qed.

Lemma summary_os_window_records tabs st :
  records st
    (fold_left (summary_tab w self lines extent exclude_self) tabs st)
    (flat_map
       (fun tab =>
          map (pair tab)
            (List.filter (fun win => negb (exclude_self && w_is_self win))
               (t_windows tab)))
       tabs).
Proof.
  revert st. induction tabs as [|tab tabs IH]; intros st; [apply records_nil|].
  cbn [fold_left flat_map].
  eapply records_trans; [apply summary_tab_records|apply IH].
Qed.

Lemma summary_tree_records data st :
  records st
    (fold_left (summary_os_window w self lines extent exclude_self) data st)
    (eligible exclude_self data).
Proof.
  revert st. induction data as [|os_win data IH]; intros st; [apply records_nil|].
  cbn [fold_left]. unfold eligible. cbn [flat_map].
  eapply records_trans; [apply summary_os_window_records|apply IH].
Qed.

(** The flag the section of a window carries is the answer of the
    scanner on the text retrieved for that window. *)
Lemma has_errors_of_detect tw :
  has_errors_of w self lines extent tw = text_shows_errors w self extent tw.
Proof.
  unfold has_errors_of, text_shows_errors, window_section.
  destruct (w_foreground_processes tw.2) as [|p ps]; cbn [snd];
    by destruct (get_text w self None extent false (Some (w_id tw.2))).
Qed.

(** X18.  After the walk, the window count is the number of eligible
    windows, the ready list holds the identifiers of the eligible windows
    that are at a prompt, and the error list those of the eligible windows
    for whose retrieved text [_detect_errors] returns an entry, both in
    traversal order. *)
Theorem summary_bookkeeping data :
  window_count (summary_walk w self lines extent exclude_self data)
  = Z.of_nat (length (eligible exclude_self data))
  /\ ready_windows (summary_walk w self lines extent exclude_self data)
     = map (fun tw => w_id tw.2)
         (List.filter (fun tw => w_at_prompt tw.2) (eligible exclude_self data))
  /\ error_windows (summary_walk w self lines extent exclude_self data)
     = map (fun tw => w_id tw.2)
         (List.filter (text_shows_errors w self extent)
            (eligible exclude_self data)).
Proof.
  destruct (summary_walk_eligible w self lines extent exclude_self data) as [_ Hc].
  destruct (summary_tree_records data
              {| output_parts := summary_header w lines extent; window_count := 0;
                 error_windows := []; ready_windows := [] |}) as [Hr He].
  split_and!; [exact Hc|exact Hr|].
  etrans; [exact He|]. cbn [error_windows app]. f_equal.
  apply List.filter_ext. exact has_errors_of_detect.
Qed.

(** X19.  A window without foreground process is reported with the process
    category ["unknown"] and the command [shell], and with the working
    directory and the process identifier of the window itself. *)
Theorem section_without_foreground tab win :
  w_foreground_processes win = [] ->
  section_of w self lines extent (tab, win) !! 5%nat
  = Some (u "| **Process** | unknown |")
  /\ section_of w self lines extent (tab, win) !! 10%nat
     = Some (u "| **Command** | `shell` |")
  /\ section_of w self lines extent (tab, win) !! 8%nat
     = Some (u "| **CWD** | `" ++ default (u "unknown") (w_cwd win) ++ u "` |")
  /\ section_of w self lines extent (tab, win) !! 9%nat
     = Some (u "| **PID** | " ++ show (w_pid win) ++ u " |").
Proof.
  intros Hfg. unfold section_of, window_section. cbn [fst snd]. rewrite Hfg.
  cbn [fst]. split_and!; reflexivity.
Qed.

End Bookkeeping.

(** A window like the sample one, without foreground process. *)
Lemma section_without_foreground_witness :
  section_of ls_timeout_world controller 20 (u "screen")
    (Build_Tab (Int 3) None true None [],
     Build_Window (Int 7) None None (Int 4242) false true false true
       (Int 80) (Int 24) 0 ∅ [])
    !! 5%nat
  = Some (u "| **Process** | unknown |")
  /\ section_of ls_timeout_world controller 20 (u "screen")
       (Build_Tab (Int 3) None true None [],
        Build_Window (Int 7) None None (Int 4242) false true false true
          (Int 80) (Int 24) 0 ∅ [])
       !! 8%nat
     = Some (u "| **CWD** | `unknown` |").
Proof.
  pose proof (section_without_foreground ls_timeout_world controller 20 (u "screen")
                (Build_Tab (Int 3) None true None [])
                (Build_Window (Int 7) None None (Int 4242) false true false true
                   (Int 80) (Int 24) 0 ∅ [])
                eq_refl) as (H5 & _ & H8 & _).
  split; [exact H5|exact H8].
Defined.

(** *** [format_size] *)

(** X20.  For a size that is not negative, the number shown with unit
    number [k] (0 for B, 1 for K, ... 4 for T) is the size in units of
    [1024^k], rounded down; it is below 1024 unless the unit is T, and at
    least 1 unless the unit is B. *)
Theorem format_size_value size :
  0 <= size ->
  exists (k : nat) (v : Z) (unit : str),
    (size_units ++ [u "T"]) !! k = Some unit
    /\ format_size size = rjust 4 (str_of_Z v) ++ unit
    /\ v * 1024 ^ Z.of_nat k <= size < (v + 1) * 1024 ^ Z.of_nat k
    /\ ((k < 4)%nat -> v < 1024)
    /\ ((0 < k)%nat -> 1 <= v).
Proof.
  intros H0. unfold format_size, size_units. cbn [format_size_loop].
  destruct (Z.ltb_spec size 1024).
  { exists 0%nat, size, (u "B").
    change (1024 ^ Z.of_nat 0) with 1.
    split_and!; try done; lia. }
  destruct (Z.ltb_spec (size / 1024) 1024).
  { exists 1%nat, (size / 1024), (u "K").
    change (1024 ^ Z.of_nat 1) with 1024.
    split_and!; try done; Z.div_mod_to_equations; lia. }
  destruct (Z.ltb_spec (size / 1024 / 1024) 1024).
  { exists 2%nat, (size / 1024 / 1024), (u "M").
    change (1024 ^ Z.of_nat 2) with 1048576.
    split_and!; try done; Z.div_mod_to_equations; lia. }
  destruct (Z.ltb_spec (size / 1024 / 1024 / 1024) 1024).
  { exists 3%nat, (size / 1024 / 1024 / 1024), (u "G").
    change (1024 ^ Z.of_nat 3) with 1073741824.
    split_and!; try done; Z.div_mod_to_equations; lia. }
  exists 4%nat, (size / 1024 / 1024 / 1024 / 1024), (u "T").
  change (1024 ^ Z.of_nat 4) with 1099511627776.
  split_and!; try done; Z.div_mod_to_equations; lia.
Qed.

Lemma format_size_value_witness :
  format_size 123456789 = u " 117M"
  /\ exists (k : nat) (v : Z) (unit : str),
       (size_units ++ [u "T"]) !! k = Some unit
       /\ format_size 123456789 = rjust 4 (str_of_Z v) ++ unit
       /\ v * 1024 ^ Z.of_nat k <= 123456789 < (v + 1) * 1024 ^ Z.of_nat k
       /\ ((k < 4)%nat -> v < 1024)
       /\ ((0 < k)%nat -> 1 <= v).
Proof.
  split; [reflexivity|].
  apply (format_size_value 123456789). lia.
Defined.

Lemma str_of_Z_four_digits v :
  0 <= v < 10000 -> (length (str_of_Z v) <= 4)%nat.
Proof.
  intros Hv.
  assert (Hall : forallb (fun n => (length (str_of_Z (Z.of_nat n)) <=? 4)%nat)
                   (seq 0 (Z.to_nat 10000)) = true) by (vm_compute; reflexivity).
  rewrite forallb_forall in Hall.
  specialize (Hall (Z.to_nat v)).
  rewrite Z2Nat.id in Hall by lia.
  apply Nat.leb_le, Hall, in_seq. lia.
Qed.

Lemma length_rjust_short width s :
  (length s <= width)%nat -> length (rjust width s) = width.
Proof. intros H. unfold rjust. rewrite length_app, length_replicate. lia. Qed.

(** X21.  Below 10000 units of [1024^4], the text of a size that is not
    negative has exactly 5 characters: a number in a field of 4 and the
    unit. *)
Theorem format_size_width size :
  0 <= size < 10000 * 1024 ^ 4 ->
  length (format_size size) = 5%nat.
Proof.
  change (10000 * 1024 ^ 4) with 10995116277760000. intros Hs.
  unfold format_size, size_units. cbn [format_size_loop].
  repeat match goal with
         | |- context [?a <? 1024] => destruct (Z.ltb_spec a 1024)
         end;
    rewrite length_app, length_rjust_short;
    try reflexivity;
    apply str_of_Z_four_digits; Z.div_mod_to_equations; lia.
Qed.

Lemma format_size_width_witness :
  format_size 5 = u "   5B" /\ length (format_size 5) = 5%nat.
Proof.
  split; [reflexivity|].
  apply (format_size_width 5). vm_compute. split; [discriminate|reflexivity].
Defined.

(** *** The plain listing *)

Lemma length_repeat_char (c : char) n : length (repeat_str [c] n) = n.
Proof.
  unfold repeat_str. induction n as [|n IH]; [reflexivity|].
  cbn [replicate concat app length]. by rewrite IH.
Qed.

(** X22.  When the listing succeeds and the time stamp has at most 50
    characters, the listing opens with a frame of three lines of 78
    characters each, followed by an empty line. *)
Theorem ls_formatted_frame w self data :
  ls w self None None = LsData data ->
  (length (now_stamp w) <= 50)%nat ->
  exists top title bottom rest,
    ls_formatted w self = join [LF] ([top; title; bottom; []] ++ rest)
    /\ length top = 78%nat /\ length title = 78%nat /\ length bottom = 78%nat.
Proof.
  intros Hls Hstamp. unfold ls_formatted. rewrite Hls. unfold ls_header.
  cbn zeta. cbn [app]. do 4 eexists. split; [reflexivity|].
  split_and!; [reflexivity| |reflexivity].
  change (u " ") with [32%N].
  rewrite !length_app, length_repeat_char.
  change (length (u "║ KITTY TERMINAL MONITOR - ")) with 27%nat.
  change (length (u "║")) with 1%nat. lia.
Qed.

Lemma ls_formatted_frame_witness :
  exists top title bottom rest,
    ls_formatted (text_timeout_world false) controller
    = join [LF] ([top; title; bottom; []] ++ rest)
    /\ length top = 78%nat /\ length title = 78%nat /\ length bottom = 78%nat.
Proof.
  apply (ls_formatted_frame (text_timeout_world false) controller (sample_tree false));
    [reflexivity|vm_compute; lia].
Defined.

(** Characters passed as part of a match are dropped. *)
Lemma replace_from_skip old new (p s : str) :
  replace_from old new (length p) (p ++ s) = replace_from old new 0 s.
Proof.
  induction p as [|c p IH]; [reflexivity|]. cbn [app length replace_from].
  destruct s as [|c' s'] eqn:E.
  - rewrite app_nil_r in *. clear IH. induction p as [|c2 p IHp]; [reflexivity|].
    cbn [length replace_from]. exact IHp.
  - rewrite <- E in *. exact IH.
Qed.

Lemma startswith_app (p s : str) : startswith p (p ++ s) = true.
Proof.
  induction p as [|c p IH]; [reflexivity|]. cbn [app startswith].
  by rewrite N.eqb_refl, IH.
Qed.

Lemma contains_startswith (p s : str) : startswith p s = true -> contains p s = true.
Proof. intros H. destruct s; cbn [contains]; by rewrite H. Qed.

(** Where [old] does not occur, nothing is replaced. *)
Lemma replace_from_absent old new s :
  contains old s = false -> replace_from old new 0 s = s.
Proof.
  induction s as [|c s IH]; [reflexivity|].
  cbn [contains replace_from]. intros H.
  apply orb_false_iff in H as [Hs Hc]. rewrite Hs. by rewrite IH.
Qed.

(** X23.  A working directory under [/Users/<name>], where that prefix
    does not occur again further on, is shown with [~] in place of the
    prefix. *)
Theorem home_tilde_home name rest :
  47%N ∉ name ->
  rest = [] \/ head rest = Some 47%N ->
  contains (u "/Users/" ++ name) rest = false ->
  home_tilde (u "/Users/" ++ name ++ rest) = u "~" ++ rest.
Proof.
  intros Hname Hrest Habsent. unfold home_tilde.
  assert (Hstart : startswith (u "/Users/") (u "/Users/" ++ name ++ rest) = true)
    by apply startswith_app.
  rewrite (contains_startswith _ _ Hstart), Hstart.
  assert (Hseg : split 47%N (u "/Users/" ++ name ++ rest) !! 2%nat = Some name).
  { change (u "/Users/" ++ name ++ rest)
      with ([] ++ 47%N :: (u "Users" ++ 47%N :: (name ++ rest))).
    rewrite (split_app_sep 47%N [] _ (not_elem_of_nil _)).
    rewrite (split_app_sep 47%N (u "Users")).
    2:{ intros H. vm_compute in H.
        repeat (apply elem_of_cons in H as [H|H]; [discriminate H|]).
        by apply elem_of_nil in H. }
    cbn [lookup list_lookup].
    destruct Hrest as [->|Hhead].
    - rewrite app_nil_r. by rewrite split_no_sep.
    - destruct rest as [|c r]; [done|]. injection Hhead as ->.
      by rewrite split_app_sep. }
  rewrite Hseg. change (default [] (Some name)) with name. unfold replace.
  rewrite (app_assoc (u "/Users/") name rest).
  change (u "/Users/" ++ name) with (47%N :: (u "Users/" ++ name)).
  set (o := u "Users/" ++ name).
  pose proof (startswith_app (47%N :: o) rest) as Hsw.
  cbn [app replace_from] in Hsw |- *. rewrite Hsw.
  replace (length (47%N :: o) - 1)%nat with (length o) by (cbn [length]; lia).
  rewrite replace_from_skip. by rewrite replace_from_absent.
Qed.

Lemma home_tilde_home_witness :
  home_tilde (u "/Users/" ++ u "bob" ++ u "/src/app") = u "~/src/app".
Proof.
  rewrite (home_tilde_home (u "bob") (u "/src/app")).
  - reflexivity.
  - intros H. vm_compute in H.
    repeat (apply elem_of_cons in H as [H|H]; [discriminate H|]).
    by apply elem_of_nil in H.
  - right. reflexivity.
  - reflexivity.
Defined.

(** X24.  A working directory that contains [/Users/] without starting with
    it is shown with a [~] before each of its characters and one at the
    end: the text replaced is then the empty one. *)
Theorem home_tilde_elsewhere cwd :
  contains (u "/Users/") cwd = true ->
  startswith (u "/Users/") cwd = false ->
  home_tilde cwd = u "~" ++ flat_map (fun c => [c] ++ u "~") cwd
  /\ length (home_tilde cwd) = (2 * length cwd + 1)%nat.
Proof.
  intros Hc Hs. unfold home_tilde. rewrite Hc, Hs. unfold replace.
  split; [reflexivity|].
  change (u "~") with [126%N]. cbn [app length]. f_equal.
  induction cwd as [|c cwd IH] in |- *; [reflexivity|].
  cbn [flat_map app length]. rewrite IH. lia.
Qed.

Lemma home_tilde_elsewhere_witness :
  home_tilde (u "/mnt/Users/x") = u "~/~m~n~t~/~U~s~e~r~s~/~x~"
  /\ length (home_tilde (u "/mnt/Users/x")) = (2 * length (u "/mnt/Users/x") + 1)%nat.
Proof.
  split; [reflexivity|].
  by apply (home_tilde_elsewhere (u "/mnt/Users/x")).
Defined.
